(** * Blood bank: inventory allocation on request approval

    A shallow embedding of the allocation core of the two Express/Mongoose
    servers of the repository:

    - [server.js]            (requests are [fulfilled], batches become [used]),
    - the second server file (requests are [approved], batches become
      [reserved], recipients are tracked),

    and of the helper [checkExpiredBlood] they share.  The MongoDB collections
    are lists of documents with an [_id]; the handlers run in a small state and
    exception monad over the collections, a clock and a write-fault oracle. *)

From Stdlib Require Import List ZArith Lia Bool String Arith PeanoNat.
From Stdlib Require Import Permutation Sorted DecimalString.
Import ListNotations.

Local Open Scope string_scope.
Local Open Scope list_scope.
Local Open Scope Z_scope.

(* ================================================================= *)
(** ** Data model (the Mongoose schemas) *)

Definition ObjectId := nat.
Definition Date := Z. (* milliseconds since the epoch *)

(** [enum: ['A+', 'A-', 'B+', 'B-', 'AB+', 'AB-', 'O+', 'O-']] *)
Inductive BloodType := A_pos | A_neg | B_pos | B_neg | AB_pos | AB_neg | O_pos | O_neg.

(** [enum: ['available', 'reserved', 'used', 'expired']] *)
Inductive InventoryStatus := available | reserved | used | expired.

(** Request status; [server.js] uses pending/fulfilled/rejected/cancelled,
    the second server pending/approved/rejected/fulfilled. *)
Inductive RequestStatus := pending | approved | fulfilled | rejected | cancelled.

Definition BloodType_eqb (a b : BloodType) : bool :=
  match a, b with
  | A_pos, A_pos | A_neg, A_neg | B_pos, B_pos | B_neg, B_neg
  | AB_pos, AB_pos | AB_neg, AB_neg | O_pos, O_pos | O_neg, O_neg => true
  | _, _ => false
  end.

Definition InventoryStatus_eqb (a b : InventoryStatus) : bool :=
  match a, b with
  | available, available | reserved, reserved | used, used | expired, expired => true
  | _, _ => false
  end.

Definition RequestStatus_eqb (a b : RequestStatus) : bool :=
  match a, b with
  | pending, pending | approved, approved | fulfilled, fulfilled
  | rejected, rejected | cancelled, cancelled => true
  | _, _ => false
  end.

Lemma BloodType_eqb_spec a b : reflect (a = b) (BloodType_eqb a b).
Proof. destruct a, b; simpl; constructor; congruence. Qed.

Lemma InventoryStatus_eqb_spec a b : reflect (a = b) (InventoryStatus_eqb a b).
Proof. destruct a, b; simpl; constructor; congruence. Qed.

Lemma RequestStatus_eqb_spec a b : reflect (a = b) (RequestStatus_eqb a b).
Proof. destruct a, b; simpl; constructor; congruence. Qed.

(** Template literals print enum values and numbers. *)
Definition BloodType_toString (b : BloodType) : string :=
  match b with
  | A_pos => "A+" | A_neg => "A-" | B_pos => "B+" | B_neg => "B-"
  | AB_pos => "AB+" | AB_neg => "AB-" | O_pos => "O+" | O_neg => "O-"
  end.

Definition RequestStatus_toString (s : RequestStatus) : string :=
  match s with
  | pending => "pending" | approved => "approved" | fulfilled => "fulfilled"
  | rejected => "rejected" | cancelled => "cancelled"
  end.

Definition Number_toString (n : Z) : string := NilZero.string_of_int (Z.to_int n).

Module Inventory.
(** [inventorySchema] *)
Record doc := mk {
  _id : ObjectId;
  bloodType : BloodType;
  units : Z;
  donorId : option ObjectId;
  collectionDate : Date;
  expiryDate : Date;
  status : InventoryStatus;
  createdAt : Date;
  updatedAt : Date
}.

Definition with_status (s : InventoryStatus) (d : doc) : doc :=
  mk (_id d) (bloodType d) (units d) (donorId d) (collectionDate d)
     (expiryDate d) s (createdAt d) (updatedAt d).

Definition with_units (u : Z) (d : doc) : doc :=
  mk (_id d) (bloodType d) u (donorId d) (collectionDate d)
     (expiryDate d) (status d) (createdAt d) (updatedAt d).

Definition with_updatedAt (t : Date) (d : doc) : doc :=
  mk (_id d) (bloodType d) (units d) (donorId d) (collectionDate d)
     (expiryDate d) (status d) (createdAt d) t.

(** The argument of [new Inventory({...})]: paths that have a schema
    default may be left out. *)
Record init := mkInit {
  i_bloodType : BloodType;
  i_units : Z;
  i_donorId : option ObjectId;
  i_collectionDate : option Date;
  i_expiryDate : Date;
  i_status : option InventoryStatus;
  i_createdAt : option Date
}.
End Inventory.

Module Request.
(** [requestSchema]: the paths the approval reads or writes, and
    [recipientId] of the second server (absent in [server.js]). *)
Record doc := mk {
  _id : ObjectId;
  recipientId : option ObjectId;
  bloodType : BloodType;
  units : Z;
  status : RequestStatus;
  processedBy : option string;
  processedDate : option Date;
  updatedAt : Date
}.

Definition with_status (s : RequestStatus) (r : doc) : doc :=
  mk (_id r) (recipientId r) (bloodType r) (units r) s
     (processedBy r) (processedDate r) (updatedAt r).

Definition with_processedBy (p : string) (r : doc) : doc :=
  mk (_id r) (recipientId r) (bloodType r) (units r) (status r)
     (Some p) (processedDate r) (updatedAt r).

Definition with_processedDate (t : Date) (r : doc) : doc :=
  mk (_id r) (recipientId r) (bloodType r) (units r) (status r)
     (processedBy r) (Some t) (updatedAt r).

Definition with_updatedAt (t : Date) (r : doc) : doc :=
  mk (_id r) (recipientId r) (bloodType r) (units r) (status r)
     (processedBy r) (processedDate r) t.
End Request.

Module Recipient.
(** [recipientSchema] of the second server: the paths the approval writes. *)
Record doc := mk {
  _id : ObjectId;
  status : RequestStatus;
  updatedAt : Date
}.
End Recipient.

(** The JSON body sent by a handler, with its HTTP status code. *)
Record Response := mkResponse {
  code : nat;
  success : bool;
  error : option string;
  message : option string;
  details : option string;
  data : option Request.doc
}.

(* ================================================================= *)
(** ** The database and the handler monad *)

(** The three collections, the number of clock readings and the number of
    write commands issued so far. *)
Record World := mkWorld {
  inventories : list Inventory.doc;
  requests : list Request.doc;
  recipients : list Recipient.doc;
  ticks : nat;
  writes : nat
}.

(** What the handlers cannot control: the clock, whether a write command is
    rejected (with the driver's error message), and the order MongoDB gives
    to the result of [.sort({ expiryDate: 1 })].  Queries are taken to
    succeed; a save that throws, for whatever reason, is a rejected write. *)
Record Env := mkEnv {
  clock : nat -> Date;
  writeFault : nat -> option string;
  sortExpiry : list Inventory.doc -> list Inventory.doc
}.

(** MongoDB's contract for the sort: the same documents, in ascending order
    of [expiryDate]; the order among equal keys is left open. *)
Definition expiryLe (a b : Inventory.doc) : Prop :=
  Inventory.expiryDate a <= Inventory.expiryDate b.

Definition SortsByExpiry (f : list Inventory.doc -> list Inventory.doc) : Prop :=
  forall l, Permutation (f l) l /\ StronglySorted expiryLe (f l).

Inductive Outcome (A : Type) : Type :=
| Ok (a : A)
| Thrown (errorMessage : string).
Arguments Ok {A} a.
Arguments Thrown {A} errorMessage.

Definition M (A : Type) : Type := World -> Outcome A * World.

Definition ret {A} (a : A) : M A := fun w => (Ok a, w).

Definition bind {A B} (m : M A) (k : A -> M B) : M B :=
  fun w =>
    match m w with
    | (Ok a, w') => k a w'
    | (Thrown e, w') => (Thrown e, w')
    end.

Notation "x <- c1 ;; c2" := (bind c1 (fun x => c2))
  (at level 61, c1 at next level, right associativity).
Notation "c1 ;;; c2" := (bind c1 (fun _ => c2))
  (at level 61, right associativity).

(** [try { ... } catch (error) { ... }] around a handler body. *)
Definition tryCatch {A} (m : M A) (handler : string -> A) : World -> A * World :=
  fun w =>
    match m w with
    | (Ok a, w') => (a, w')
    | (Thrown e, w') => (handler e, w')
    end.

(** [for (const x of xs) { ... break ... }] with one loop variable. *)
Inductive Flow (S : Type) : Type :=
| Continue (s : S)
| Break (s : S).
Arguments Continue {S} s.
Arguments Break {S} s.

Fixpoint forOf {A S} (xs : list A) (body : A -> S -> M (Flow S)) (s : S) : M S :=
  match xs with
  | [] => ret s
  | x :: xs' =>
      r <- body x s ;;
      match r with
      | Break s' => ret s'
      | Continue s' => forOf xs' body s'
      end
  end.

(* ----------------------------------------------------------------- *)
(** *** Pure operations on a collection *)

Definition upsert (d : Inventory.doc) (l : list Inventory.doc) : list Inventory.doc :=
  if existsb (fun x => Nat.eqb (Inventory._id x) (Inventory._id d)) l
  then map (fun x => if Nat.eqb (Inventory._id x) (Inventory._id d) then d else x) l
  else l ++ [d].

Definition upsertRequest (r : Request.doc) (l : list Request.doc) : list Request.doc :=
  if existsb (fun x => Nat.eqb (Request._id x) (Request._id r)) l
  then map (fun x => if Nat.eqb (Request._id x) (Request._id r) then r else x) l
  else l ++ [r].

Definition lookup (id : ObjectId) (l : list Inventory.doc) : option Inventory.doc :=
  find (fun x => Nat.eqb (Inventory._id x) id) l.

Definition lookupRequest (id : ObjectId) (l : list Request.doc) : option Request.doc :=
  find (fun x => Nat.eqb (Request._id x) id) l.

(** A new ObjectId differs from every [_id] of the collection. *)
Definition freshId (l : list Inventory.doc) : ObjectId :=
  S (fold_right Nat.max 0%nat (map Inventory._id l)).

(** [{ $group: { _id: null, totalUnits: { $sum: '$units' } } }] *)
Definition sumUnits (l : list Inventory.doc) : Z :=
  fold_right (fun d acc => Inventory.units d + acc) 0 l.

(** [updateMany(filter, { $set: { status: 'expired' } })] with the filter
    [{ expiryDate: { $lt: now }, status: 'available' }]. *)
Definition sweepExpired (now : Date) (l : list Inventory.doc) : list Inventory.doc :=
  map (fun d =>
         if (Inventory.expiryDate d <? now)
            && InventoryStatus_eqb (Inventory.status d) available
         then Inventory.with_status expired d
         else d) l.

Section Handlers.

Variable env : Env.

(* --------------------------------------------------------------- *)
(** *** Primitive actions *)

(** [new Date()], [Date.now] *)
Definition newDate : M Date :=
  fun w =>
    (Ok (clock env (ticks w)),
     mkWorld (inventories w) (requests w) (recipients w) (S (ticks w)) (writes w)).

Definition defaultNow (given : option Date) : M Date :=
  match given with
  | Some t => ret t
  | None => newDate
  end.

(** A write command reaches the database or throws. *)
Definition write (f : World -> World) : M unit :=
  fun w =>
    let w1 := mkWorld (inventories w) (requests w) (recipients w)
                      (ticks w) (S (writes w)) in
    match writeFault env (writes w) with
    | Some e => (Thrown e, w1)
    | None => (Ok tt, f w1)
    end.

(** [req.params.id] as Mongoose's cast to ObjectId takes it: the ObjectId
    the string stands for, or, for a string that is no ObjectId, the
    CastError that the query throws, with its message. *)
Inductive IdParam :=
| IdOf (id : ObjectId)
| CastError (errorMessage : string).

(** The cast of the [_id] condition of a query; it sends no command. *)
Definition castObjectId (p : IdParam) : M ObjectId :=
  match p with
  | IdOf id => ret id
  | CastError errorMessage => fun w => (Thrown errorMessage, w)
  end.

(** [Request.findById(req.params.id)] *)
Definition Request_findById (p : IdParam) : M (option Request.doc) :=
  id <- castObjectId p ;;
  fun w => (Ok (lookupRequest id (requests w)), w).

(** [Inventory.aggregate([{ $match }, { $group: totalUnits }])]: one group
    when some document matches, none otherwise. *)
Definition Inventory_aggregate_totalUnits (matches : Inventory.doc -> bool)
  : M (list Z) :=
  fun w =>
    match filter matches (inventories w) with
    | [] => (Ok [], w)
    | ds => (Ok [sumUnits ds], w)
    end.

(** [Inventory.find(filter).sort({ expiryDate: 1 })] *)
Definition Inventory_find_sortExpiry (matches : Inventory.doc -> bool)
  : M (list Inventory.doc) :=
  fun w => (Ok (sortExpiry env (filter matches (inventories w))), w).

(** [new Inventory({...})]: a fresh [_id]; the defaults of the schema are
    evaluated in the order of its paths. *)
Definition Inventory_new (i : Inventory.init) : M Inventory.doc :=
  fun w =>
    (collectionDate <- defaultNow (Inventory.i_collectionDate i) ;;
     created <- defaultNow (Inventory.i_createdAt i) ;;
     updated <- newDate ;;
     ret (Inventory.mk (freshId (inventories w))
            (Inventory.i_bloodType i) (Inventory.i_units i)
            (Inventory.i_donorId i) collectionDate
            (Inventory.i_expiryDate i)
            (match Inventory.i_status i with Some s => s | None => available end)
            created updated)) w.

(** [doc.save()] on an inventory document *)
Definition Inventory_save (d : Inventory.doc) : M unit :=
  write (fun w => mkWorld (upsert d (inventories w)) (requests w)
                          (recipients w) (ticks w) (writes w)).

(** [request.save()] *)
Definition Request_save (r : Request.doc) : M unit :=
  write (fun w => mkWorld (inventories w) (upsertRequest r (requests w))
                          (recipients w) (ticks w) (writes w)).

(** [Inventory.updateMany({ expiryDate: { $lt: now }, status: 'available' },
                          { $set: { status: 'expired' } })] *)
Definition Inventory_updateMany_expire (now : Date) : M unit :=
  write (fun w => mkWorld (sweepExpired now (inventories w)) (requests w)
                          (recipients w) (ticks w) (writes w)).

(** [Recipient.findByIdAndUpdate(id, { status, updatedAt })] *)
Definition Recipient_findByIdAndUpdate (id : option ObjectId)
           (s : RequestStatus) (t : Date) : M unit :=
  write (fun w =>
           mkWorld (inventories w) (requests w)
             (map (fun r =>
                     match id with
                     | Some i => if Nat.eqb (Recipient._id r) i
                                 then Recipient.mk (Recipient._id r) s t
                                 else r
                     | None => r
                     end) (recipients w))
             (ticks w) (writes w)).

(** [checkExpiredBlood] (both servers) *)
Definition checkExpiredBlood : M unit :=
  now <- newDate ;;
  Inventory_updateMany_expire now.

End Handlers.

(* ================================================================= *)
(** ** [server.js]: PUT /api/requests/:id/approve *)

Module ServerJs.
Section Approve.

Variable env : Env.

(** The query filter of the availability check and of the selection:
    [{ bloodType: request.bloodType, status: 'available',
       expiryDate: { $gt: new Date() } }] *)
Definition selectable (bt : BloodType) (now : Date) (d : Inventory.doc) : bool :=
  BloodType_eqb (Inventory.bloodType d) bt
  && InventoryStatus_eqb (Inventory.status d) available
  && (now <? Inventory.expiryDate d).

(** The body of [for (const item of inventoryItemsToUpdate)]. *)
Definition deductBody (item : Inventory.doc) (unitsToDeduct : Z) : M (Flow Z) :=
  if unitsToDeduct <=? 0 then ret (Break unitsToDeduct)
  else if Inventory.units item <=? unitsToDeduct then
    (* Use the entire batch *)
    let item := Inventory.with_status used item in
    let unitsToDeduct := unitsToDeduct - Inventory.units item in
    now <- newDate env ;;
    let item := Inventory.with_updatedAt now item in
    Inventory_save env item ;;;
    ret (Continue unitsToDeduct)
  else
    (* Split the batch: part used, part remains available *)
    newUsedBatch <- Inventory_new env
      (Inventory.mkInit (Inventory.bloodType item) unitsToDeduct
         (Inventory.donorId item) (Some (Inventory.collectionDate item))
         (Inventory.expiryDate item) (Some used)
         (Some (Inventory.createdAt item))) ;;
    Inventory_save env newUsedBatch ;;;
    let item := Inventory.with_units (Inventory.units item - unitsToDeduct) item in
    now <- newDate env ;;
    let item := Inventory.with_updatedAt now item in
    Inventory_save env item ;;;
    ret (Continue 0).

Definition insufficientMessage (bt : BloodType) (totalAvailable required : Z) : string :=
  ("Insufficient " ++ BloodType_toString bt ++ " blood. Available: "
     ++ Number_toString totalAvailable ++ ", Required: "
     ++ Number_toString required ++ ".")%string.

Definition approve (id : IdParam) : World -> Response * World :=
  tryCatch
    (request <- Request_findById id ;;
     match request with
     | None =>
         ret (mkResponse 404 false (Some "Request not found.") None None None)
     | Some request =>
         if negb (RequestStatus_eqb (Request.status request) pending) then
           ret (mkResponse 400 false
                  (Some ("Request status is "
                           ++ RequestStatus_toString (Request.status request)
                           ++ ". Only pending requests can be approved.")%string)
                  None None None)
         else
           (* Check if enough blood is available *)
           now <- newDate env ;;
           availableBloodUnits <-
             Inventory_aggregate_totalUnits
               (selectable (Request.bloodType request) now) ;;
           let totalAvailable :=
             match availableBloodUnits with
             | totalUnits :: _ => totalUnits
             | [] => 0
             end in
           if totalAvailable <? Request.units request then
             ret (mkResponse 400 false
                    (Some (insufficientMessage (Request.bloodType request)
                             totalAvailable (Request.units request)))
                    None None None)
           else
             (* Deduct units from inventory (prioritize by earliest expiry) *)
             let unitsToDeduct := Request.units request in
             now <- newDate env ;;
             inventoryItemsToUpdate <-
               Inventory_find_sortExpiry env
                 (selectable (Request.bloodType request) now) ;;
             _ <- forOf inventoryItemsToUpdate deductBody unitsToDeduct ;;
             (* Update request status to fulfilled *)
             let request := Request.with_status fulfilled request in
             let request := Request.with_processedBy "System" request in
             now <- newDate env ;;
             let request := Request.with_processedDate now request in
             now <- newDate env ;;
             let request := Request.with_updatedAt now request in
             Request_save env request ;;;
             ret (mkResponse 200 true None
                    (Some "Request fulfilled successfully and inventory updated.")
                    None (Some request))
     end)
    (fun errorMessage =>
       mkResponse 500 false (Some "Failed to fulfill request") None
         (Some errorMessage) None).

End Approve.
End ServerJs.

(* ================================================================= *)
(** ** The second server: PUT /api/requests/:id/approve *)

Module Reserve.
Section Approve.

Variable env : Env.

(** [{ bloodType: request.bloodType, status: 'available' }] *)
Definition selectable (bt : BloodType) (d : Inventory.doc) : bool :=
  BloodType_eqb (Inventory.bloodType d) bt
  && InventoryStatus_eqb (Inventory.status d) available.

(** The body of [for (const item of inventoryItems)]. *)
Definition reserveBody (item : Inventory.doc) (unitsToReserve : Z) : M (Flow Z) :=
  if unitsToReserve <=? 0 then ret (Break unitsToReserve)
  else if Inventory.units item <=? unitsToReserve then
    let item := Inventory.with_status reserved item in
    let unitsToReserve := unitsToReserve - Inventory.units item in
    Inventory_save env item ;;;
    ret (Continue unitsToReserve)
  else
    (* Split the inventory item *)
    newItem <- Inventory_new env
      (Inventory.mkInit (Inventory.bloodType item) unitsToReserve
         (Inventory.donorId item) (Some (Inventory.collectionDate item))
         (Inventory.expiryDate item) (Some reserved) None) ;;
    Inventory_save env newItem ;;;
    let item := Inventory.with_units (Inventory.units item - unitsToReserve) item in
    Inventory_save env item ;;;
    ret (Continue 0).

Definition insufficientMessage (availableUnits required : Z) : string :=
  ("Insufficient blood units. Available: " ++ Number_toString availableUnits
     ++ ", Required: " ++ Number_toString required)%string.

Definition approve (id : IdParam) : World -> Response * World :=
  tryCatch
    (request <- Request_findById id ;;
     match request with
     | None =>
         ret (mkResponse 404 false (Some "Request not found") None None None)
     | Some request =>
         (* Check blood availability *)
         availability <-
           Inventory_aggregate_totalUnits
             (selectable (Request.bloodType request)) ;;
         let availableUnits :=
           match availability with
           | totalUnits :: _ => totalUnits
           | [] => 0
           end in
         if availableUnits <? Request.units request then
           ret (mkResponse 400 false
                  (Some (insufficientMessage availableUnits (Request.units request)))
                  None None None)
         else
           (* Reserve blood units *)
           let unitsToReserve := Request.units request in
           inventoryItems <-
             Inventory_find_sortExpiry env
               (selectable (Request.bloodType request)) ;;
           _ <- forOf inventoryItems reserveBody unitsToReserve ;;
           let request := Request.with_status approved request in
           let request := Request.with_processedBy "System Admin" request in
           now <- newDate env ;;
           let request := Request.with_updatedAt now request in
           Request_save env request ;;;
           (* Update recipient status *)
           now <- newDate env ;;
           Recipient_findByIdAndUpdate env (Request.recipientId request)
             approved now ;;;
           ret (mkResponse 200 true None
                  (Some "Request approved and blood units reserved successfully")
                  None (Some request))
     end)
    (fun errorMessage =>
       mkResponse 500 false (Some "Failed to approve request") None
         (Some errorMessage) None).

End Approve.
End Reserve.

(** The two implementations of the approve operation. *)
Inductive Variant := Fulfilling | Reserving.

(** The route, for any value of [req.params.id]. *)
Definition approveRoute (v : Variant) (env : Env) (p : IdParam)
  : World -> Response * World :=
  match v with
  | Fulfilling => ServerJs.approve env p
  | Reserving => Reserve.approve env p
  end.

(** The approve operation on the request named by an ObjectId: the route
    at a parameter that casts to [id]. *)
Definition approve (v : Variant) (env : Env) (id : ObjectId)
  : World -> Response * World :=
  match v with
  | Fulfilling => ServerJs.approve env (IdOf id)
  | Reserving => Reserve.approve env (IdOf id)
  end.

(** The status an allocation gives to the quantity it consumes. *)
Definition consumedStatus (v : Variant) : InventoryStatus :=
  match v with
  | Fulfilling => used
  | Reserving => reserved
  end.

(** The loop body of each implementation. *)
Definition allocBody (v : Variant) (env : Env) : Inventory.doc -> Z -> M (Flow Z) :=
  match v with
  | Fulfilling => ServerJs.deductBody env
  | Reserving => Reserve.reserveBody env
  end.

(* ================================================================= *)
(** ** Concrete environments, for running the handlers *)

(** Insertion into a list sorted by [expiryDate]; [before] tells whether the
    new document goes in front of a document of the list. *)
Fixpoint insertBy (before : Inventory.doc -> Inventory.doc -> bool)
         (d : Inventory.doc) (l : list Inventory.doc) : list Inventory.doc :=
  match l with
  | [] => [d]
  | x :: l' => if before d x then d :: l else x :: insertBy before d l'
  end.

Definition sortBy (before : Inventory.doc -> Inventory.doc -> bool)
           (l : list Inventory.doc) : list Inventory.doc :=
  fold_right (insertBy before) [] l.

(** Equal expiry dates keep the order of the collection. *)
Definition sortStable : list Inventory.doc -> list Inventory.doc :=
  sortBy (fun d x => Inventory.expiryDate d <=? Inventory.expiryDate x).

(** Equal expiry dates come out in the reverse order of the collection. *)
Definition sortReversing : list Inventory.doc -> list Inventory.doc :=
  sortBy (fun d x => Inventory.expiryDate d <? Inventory.expiryDate x).

(** A clock that advances by one millisecond per reading, no write fault. *)
Definition calmEnv (start : Date) : Env :=
  mkEnv (fun k => start + Z.of_nat k) (fun _ => None) sortStable.

(** The same, but the write command number [k] is rejected. *)
Definition faultyEnv (start : Date) (k : nat) : Env :=
  mkEnv (fun k => start + Z.of_nat k)
        (fun n => if Nat.eqb n k then Some "write failed" else None)
        sortStable.

(* ================================================================= *)
(** ** Collections: identifiers, lookup, quantities *)

Definition ids (l : list Inventory.doc) : list ObjectId := map Inventory._id l.

(** [_id] is a key of the collection. *)
Definition wfInventory (l : list Inventory.doc) : Prop := NoDup (ids l).

Definition ofType (bt : BloodType) (d : Inventory.doc) : bool :=
  BloodType_eqb (Inventory.bloodType d) bt.

(** The quantity held for a blood type, whatever the status of the batch. *)
Definition quantityOf (bt : BloodType) (l : list Inventory.doc) : Z :=
  sumUnits (filter (ofType bt) l).

Definition share (bt : BloodType) (d : Inventory.doc) : Z :=
  if ofType bt d then Inventory.units d else 0.

Definition replaceDoc (d : Inventory.doc) (l : list Inventory.doc) : list Inventory.doc :=
  map (fun x => if Nat.eqb (Inventory._id x) (Inventory._id d) then d else x) l.

Lemma existsb_id_In id l :
  existsb (fun x => Nat.eqb (Inventory._id x) id) l = true <-> In id (ids l).
Proof.
  unfold ids. rewrite existsb_exists, in_map_iff. split.
  - intros [x [Hx He]]. apply Nat.eqb_eq in He. eauto.
  - intros [x [He Hx]]. exists x. split; [assumption|]. now apply Nat.eqb_eq.
Qed.

Lemma upsert_old d l :
  In (Inventory._id d) (ids l) -> upsert d l = replaceDoc d l.
Proof.
  intros H. unfold upsert. apply existsb_id_In in H. now rewrite H.
Qed.

Lemma upsert_new d l :
  ~ In (Inventory._id d) (ids l) -> upsert d l = l ++ [d].
Proof.
  intros H. unfold upsert.
  destruct (existsb _ l) eqn:E; [|reflexivity].
  apply existsb_id_In in E. contradiction.
Qed.

Lemma replaceDoc_absent d l :
  ~ In (Inventory._id d) (ids l) -> replaceDoc d l = l.
Proof.
  induction l as [|x l IH]; simpl; intros H; [reflexivity|].
  destruct (Nat.eqb_spec (Inventory._id x) (Inventory._id d)) as [E|E].
  - exfalso. apply H. now left.
  - f_equal. apply IH. intros Hin. apply H. now right.
Qed.

Lemma ids_replaceDoc d l : ids (replaceDoc d l) = ids l.
Proof.
  induction l as [|x l IH]; simpl; [reflexivity|].
  rewrite IH. f_equal.
  destruct (Nat.eqb_spec (Inventory._id x) (Inventory._id d)); congruence.
Qed.

Lemma freshId_above l x : In x (ids l) -> (x < freshId l)%nat.
Proof.
  unfold freshId. induction l as [|d l IH]; simpl; [tauto|].
  intros [H|H]; [subst; lia|]. specialize (IH H). lia.
Qed.

Lemma freshId_fresh l : ~ In (freshId l) (ids l).
Proof. intros H. apply freshId_above in H. lia. Qed.

Lemma ids_upsert d l :
  ids (upsert d l) = ids l \/ 
  (~ In (Inventory._id d) (ids l) /\ ids (upsert d l) = ids l ++ [Inventory._id d]).
Proof.
  destruct (in_dec Nat.eq_dec (Inventory._id d) (ids l)) as [H|H].
  - left. rewrite upsert_old by assumption. apply ids_replaceDoc.
  - right. split; [assumption|]. rewrite upsert_new by assumption.
    unfold ids. now rewrite map_app.
Qed.

Lemma In_ids_upsert d l x :
  In x (ids (upsert d l)) <-> In x (ids l) \/ x = Inventory._id d.
Proof.
  destruct (in_dec Nat.eq_dec (Inventory._id d) (ids l)) as [H|H].
  - rewrite upsert_old, ids_replaceDoc by assumption.
    split; [tauto|]. intros [?|E1]; [assumption|now subst x].
  - rewrite upsert_new by assumption. unfold ids. rewrite map_app, in_app_iff.
    simpl. split; intros [?|?]; try tauto; right; [|left]; intuition congruence.
Qed.

Lemma wfInventory_upsert d l : wfInventory l -> wfInventory (upsert d l).
Proof.
  unfold wfInventory. intros H.
  destruct (ids_upsert d l) as [E|[Hn E]]; rewrite E; [assumption|].
  apply NoDup_app; [assumption|repeat constructor; simpl; tauto|].
  intros x Hx [E1 | []]. subst x. contradiction.
Qed.

Lemma lookup_Some id l d :
  lookup id l = Some d -> In d l /\ Inventory._id d = id.
Proof.
  unfold lookup. intros H. apply find_some in H as [H1 H2].
  apply Nat.eqb_eq in H2. tauto.
Qed.

Lemma lookup_None id l : lookup id l = None <-> ~ In id (ids l).
Proof.
  unfold lookup, ids. split.
  - intros H Hin. apply in_map_iff in Hin as [x [He Hx]].
    apply (find_none _ _ H) in Hx. apply Nat.eqb_neq in Hx. contradiction.
  - intros H. destruct (find _ l) eqn:E; [|reflexivity].
    apply find_some in E as [E1 E2]. apply Nat.eqb_eq in E2.
    exfalso. apply H. apply in_map_iff. eauto.
Qed.

Lemma lookup_of_In l d :
  wfInventory l -> In d l -> lookup (Inventory._id d) l = Some d.
Proof.
  unfold wfInventory, lookup. induction l as [|x l IH]; simpl; [tauto|].
  intros Hnd [->|Hin].
  - now rewrite Nat.eqb_refl.
  - inversion_clear Hnd as [|? ? Hx Hl].
    destruct (Nat.eqb_spec (Inventory._id x) (Inventory._id d)) as [E|E].
    + exfalso. apply Hx. rewrite E. now apply in_map.
    + auto.
Qed.

Lemma lookup_replaceDoc id d l :
  lookup id (replaceDoc d l) =
  if Nat.eqb (Inventory._id d) id
  then match lookup id l with Some _ => Some d | None => None end
  else lookup id l.
Proof.
  unfold lookup. induction l as [|x l IH]; simpl.
  - now destruct (Nat.eqb _ id).
  - rewrite IH. clear IH.
    destruct (Nat.eqb_spec (Inventory._id x) (Inventory._id d)) as [E|E];
      destruct (Nat.eqb_spec (Inventory._id d) id) as [F|F];
      destruct (Nat.eqb_spec (Inventory._id x) id) as [G|G];
      try congruence; reflexivity.
Qed.

Lemma lookup_app id l1 l2 :
  lookup id (l1 ++ l2) =
  match lookup id l1 with Some d => Some d | None => lookup id l2 end.
Proof.
  unfold lookup. induction l1 as [|x l1 IH]; simpl; [reflexivity|].
  now destruct (Nat.eqb (Inventory._id x) id).
Qed.

(** After a save, the saved document is the one found under its [_id]; the
    other documents are as before. *)
Lemma lookup_upsert id d l :
  lookup id (upsert d l) =
  if Nat.eqb (Inventory._id d) id then Some d else lookup id l.
Proof.
  destruct (in_dec Nat.eq_dec (Inventory._id d) (ids l)) as [H|H].
  - rewrite upsert_old, lookup_replaceDoc by assumption.
    destruct (Nat.eqb_spec (Inventory._id d) id) as [E|E]; [|reflexivity].
    destruct (lookup id l) eqn:F; [reflexivity|].
    apply lookup_None in F. rewrite <- E in F. contradiction.
  - rewrite upsert_new, lookup_app by assumption.
    unfold lookup at 2. simpl.
    destruct (Nat.eqb_spec (Inventory._id d) id) as [E|E].
    + apply lookup_None in H. now rewrite <- E, H.
    + now destruct (lookup id l).
Qed.

Lemma quantityOf_cons bt d l :
  quantityOf bt (d :: l) = share bt d + quantityOf bt l.
Proof.
  unfold quantityOf, share. simpl. destruct (ofType bt d); simpl; lia.
Qed.

Lemma quantityOf_app bt l1 l2 :
  quantityOf bt (l1 ++ l2) = quantityOf bt l1 + quantityOf bt l2.
Proof.
  induction l1 as [|x l1 IH]; simpl; [reflexivity|].
  rewrite !quantityOf_cons, IH. lia.
Qed.

Lemma quantityOf_replaceDoc bt d d0 l :
  wfInventory l ->
  lookup (Inventory._id d) l = Some d0 ->
  quantityOf bt (replaceDoc d l) = quantityOf bt l - share bt d0 + share bt d.
Proof.
  unfold wfInventory, lookup.
  induction l as [|x l IH]; simpl; intros Hnd H; [discriminate|].
  inversion_clear Hnd as [|? ? Hx Hl].
  destruct (Nat.eqb_spec (Inventory._id x) (Inventory._id d)) as [E|E].
  - injection H as <-. rewrite E in Hx.
    fold (replaceDoc d l). rewrite (replaceDoc_absent _ _ Hx).
    rewrite !quantityOf_cons. lia.
  - fold (replaceDoc d l). rewrite !quantityOf_cons, (IH Hl H). lia.
Qed.

(** Saving over a stored document exchanges its share of the quantity. *)
Lemma quantityOf_upsert_old bt d d0 l :
  wfInventory l ->
  lookup (Inventory._id d) l = Some d0 ->
  quantityOf bt (upsert d l) = quantityOf bt l - share bt d0 + share bt d.
Proof.
  intros Hwf H. rewrite upsert_old.
  - now apply quantityOf_replaceDoc.
  - destruct (lookup_Some _ _ _ H) as [Hin E]. rewrite <- E. now apply in_map.
Qed.

(** Saving a new document adds its share. *)
Lemma quantityOf_upsert_new bt d l :
  ~ In (Inventory._id d) (ids l) ->
  quantityOf bt (upsert d l) = quantityOf bt l + share bt d.
Proof.
  intros H. rewrite (upsert_new _ _ H), quantityOf_app, quantityOf_cons.
  change (quantityOf bt []) with 0. lia.
Qed.

(** The batches of the other blood types, in the order of the collection. *)
Definition otherTypes (bt : BloodType) (l : list Inventory.doc) : list Inventory.doc :=
  filter (fun d => negb (ofType bt d)) l.

Lemma otherTypes_replaceDoc bt d d0 l :
  wfInventory l ->
  lookup (Inventory._id d) l = Some d0 ->
  ofType bt d0 = true -> ofType bt d = true ->
  otherTypes bt (replaceDoc d l) = otherTypes bt l.
Proof.
  unfold wfInventory, lookup, otherTypes.
  induction l as [|x l IH]; intros Hnd H H0 H1; [reflexivity|].
  inversion_clear Hnd as [|? ? Hx Hl]. simpl in H |- *.
  destruct (Nat.eqb_spec (Inventory._id x) (Inventory._id d)) as [E|E].
  - injection H as <-. rewrite E in Hx.
    now rewrite (replaceDoc_absent _ _ Hx), H0, H1.
  - now rewrite (IH Hl H H0 H1).
Qed.

Lemma otherTypes_upsert_old bt d d0 l :
  wfInventory l ->
  lookup (Inventory._id d) l = Some d0 ->
  ofType bt d0 = true -> ofType bt d = true ->
  otherTypes bt (upsert d l) = otherTypes bt l.
Proof.
  intros Hwf H H0 H1. rewrite upsert_old.
  - now apply otherTypes_replaceDoc with d0.
  - destruct (lookup_Some _ _ _ H) as [Hin E]. rewrite <- E. now apply in_map.
Qed.

Lemma otherTypes_upsert_new bt d l :
  ~ In (Inventory._id d) (ids l) ->
  ofType bt d = true ->
  otherTypes bt (upsert d l) = otherTypes bt l.
Proof.
  intros H H1. rewrite (upsert_new _ _ H). unfold otherTypes.
  rewrite filter_app. simpl. rewrite H1. simpl. apply app_nil_r.
Qed.

(* ================================================================= *)
(** ** The order given by the database *)

Section InsertionSort.

Variable before : Inventory.doc -> Inventory.doc -> bool.
Hypothesis before_le : forall d x, before d x = true -> expiryLe d x.
Hypothesis after_le : forall d x, before d x = false -> expiryLe x d.

Lemma insertBy_perm d l : Permutation (insertBy before d l) (d :: l).
Proof.
  induction l as [|x l IH]; simpl; [reflexivity|].
  destruct (before d x); [reflexivity|].
  rewrite IH. apply perm_swap.
Qed.

Lemma insertBy_sorted d l :
  StronglySorted expiryLe l -> StronglySorted expiryLe (insertBy before d l).
Proof.
  induction l as [|x l IH]; simpl; intros Hs.
  - repeat constructor.
  - inversion_clear Hs as [|? ? Hl Hx].
    destruct (before d x) eqn:E.
    + constructor; [now constructor|].
      constructor; [now apply before_le|].
      apply before_le in E. rewrite Forall_forall in *. intros y Hy.
      specialize (Hx y Hy). unfold expiryLe in *. lia.
    + constructor; [now apply IH|].
      rewrite Forall_forall in *. intros y Hy.
      apply (Permutation_in _ (insertBy_perm d l)) in Hy.
      destruct Hy as [<-|Hy]; [now apply after_le|now apply Hx].
Qed.

Lemma sortBy_contract : SortsByExpiry (sortBy before).
Proof.
  intros l. unfold sortBy. induction l as [|x l [IHp IHs]]; simpl.
  - split; constructor.
  - split.
    + rewrite insertBy_perm. now constructor.
    + now apply insertBy_sorted.
Qed.

End InsertionSort.

Lemma sortStable_contract : SortsByExpiry sortStable.
Proof.
  apply sortBy_contract; unfold expiryLe; intros d x H.
  - apply Z.leb_le in H. exact H.
  - apply Z.leb_gt in H. lia.
Qed.

Lemma sortReversing_contract : SortsByExpiry sortReversing.
Proof.
  apply sortBy_contract; unfold expiryLe; intros d x H.
  - apply Z.ltb_lt in H. lia.
  - apply Z.ltb_ge in H. exact H.
Qed.

(* ================================================================= *)
(** ** What one run of the allocation loop does to the collection *)

(** [d] is [item] consumed whole: the status is the target status, and only
    [updatedAt] may differ besides. *)
Definition WholeOf (target : InventoryStatus) (item d : Inventory.doc) : Prop :=
  Inventory.with_updatedAt (Inventory.updatedAt item) d
  = Inventory.with_status target item.

(** [d] is [item] after [n] units were split off. *)
Definition RestOf (item : Inventory.doc) (n : Z) (d : Inventory.doc) : Prop :=
  Inventory.with_updatedAt (Inventory.updatedAt item) d
  = Inventory.with_units (Inventory.units item - n) item.

(** [d] is the new document of a split of [n] units off [item]. *)
Record NewOf (target : InventoryStatus) (item : Inventory.doc) (n : Z)
       (inv : list Inventory.doc) (d : Inventory.doc) : Prop := mkNewOf {
  new_id : Inventory._id d = freshId inv;
  new_bloodType : Inventory.bloodType d = Inventory.bloodType item;
  new_units : Inventory.units d = n;
  new_donorId : Inventory.donorId d = Inventory.donorId item;
  new_collectionDate : Inventory.collectionDate d = Inventory.collectionDate item;
  new_expiryDate : Inventory.expiryDate d = Inventory.expiryDate item;
  new_status : Inventory.status d = target
}.

(** [AllocRun target items n inv ok inv']: iterating over [items] with [n]
    units still to take, from the collection [inv], leaves the collection
    [inv']; [ok] tells whether the loop ran to its end or a save threw. *)
Inductive AllocRun (target : InventoryStatus)
  : list Inventory.doc -> Z -> list Inventory.doc -> bool
    -> list Inventory.doc -> Prop :=
| run_done n inv :
    AllocRun target [] n inv true inv
| run_break item items n inv :
    n <= 0 ->
    AllocRun target (item :: items) n inv true inv
| run_whole item items n inv d ok inv' :
    0 < n -> Inventory.units item <= n ->
    WholeOf target item d ->
    AllocRun target items (n - Inventory.units item) (upsert d inv) ok inv' ->
    AllocRun target (item :: items) n inv ok inv'
| run_split item items n inv dnew drest ok inv' :
    0 < n -> n < Inventory.units item ->
    NewOf target item n inv dnew ->
    RestOf item n drest ->
    AllocRun target items 0 (upsert drest (upsert dnew inv)) ok inv' ->
    AllocRun target (item :: items) n inv ok inv'
| run_thrown item items n inv :
    0 < n ->
    AllocRun target (item :: items) n inv false inv
| run_thrown_split item items n inv dnew :
    0 < n -> n < Inventory.units item ->
    NewOf target item n inv dnew ->
    AllocRun target (item :: items) n inv false (upsert dnew inv).

(** The documents of a query result are the stored ones, each once. *)
Definition Current (items inv : list Inventory.doc) : Prop :=
  NoDup (ids items)
  /\ Forall (fun it => lookup (Inventory._id it) inv = Some it) items.

Lemma WholeOf_id target item d : WholeOf target item d -> Inventory._id d = Inventory._id item.
Proof. intros H. exact (f_equal Inventory._id H). Qed.

Lemma WholeOf_bloodType target item d :
  WholeOf target item d -> Inventory.bloodType d = Inventory.bloodType item.
Proof. intros H. exact (f_equal Inventory.bloodType H). Qed.

Lemma WholeOf_units target item d :
  WholeOf target item d -> Inventory.units d = Inventory.units item.
Proof. intros H. exact (f_equal Inventory.units H). Qed.

Lemma WholeOf_status target item d :
  WholeOf target item d -> Inventory.status d = target.
Proof. intros H. exact (f_equal Inventory.status H). Qed.

Lemma RestOf_id item n d : RestOf item n d -> Inventory._id d = Inventory._id item.
Proof. intros H. exact (f_equal Inventory._id H). Qed.

Lemma RestOf_bloodType item n d :
  RestOf item n d -> Inventory.bloodType d = Inventory.bloodType item.
Proof. intros H. exact (f_equal Inventory.bloodType H). Qed.

Lemma RestOf_units item n d :
  RestOf item n d -> Inventory.units d = Inventory.units item - n.
Proof. intros H. exact (f_equal Inventory.units H). Qed.

Lemma RestOf_status item n d :
  RestOf item n d -> Inventory.status d = Inventory.status item.
Proof. intros H. exact (f_equal Inventory.status H). Qed.

Lemma Current_In_ids items inv it :
  Current items inv -> In it items -> In (Inventory._id it) (ids inv).
Proof.
  intros [_ H] Hin. rewrite Forall_forall in H.
  destruct (lookup_Some _ _ _ (H it Hin)) as [H1 _]. now apply in_map.
Qed.

Lemma Current_tail item items inv : Current (item :: items) inv -> Current items inv.
Proof.
  intros [Hnd H]. inversion_clear Hnd. inversion_clear H. now split.
Qed.

Lemma Current_head item items inv :
  Current (item :: items) inv ->
  lookup (Inventory._id item) inv = Some item
  /\ ~ In (Inventory._id item) (ids items).
Proof.
  intros [Hnd H]. inversion_clear Hnd. inversion_clear H. now split.
Qed.

(** Saving a document under the [_id] of the current item leaves the
    remaining items current. *)
Lemma Current_save_item item items inv d :
  Current (item :: items) inv ->
  Inventory._id d = Inventory._id item ->
  Current items (upsert d inv).
Proof.
  intros Hc E. destruct (Current_head _ _ _ Hc) as [_ Hn].
  destruct (Current_tail _ _ _ Hc) as [Hnd H]. split; [assumption|].
  rewrite Forall_forall in *. intros it Hin. rewrite lookup_upsert.
  destruct (Nat.eqb_spec (Inventory._id d) (Inventory._id it)) as [F|F]; [|auto].
  exfalso. apply Hn. rewrite <- E, F. now apply in_map.
Qed.

(** So does saving a document with a fresh [_id]. *)
Lemma Current_save_new items inv d :
  Current items inv ->
  Inventory._id d = freshId inv ->
  Current items (upsert d inv).
Proof.
  intros Hc E. pose proof Hc as [Hnd H]. split; [assumption|].
  rewrite Forall_forall in *. intros it Hin. rewrite lookup_upsert.
  destruct (Nat.eqb_spec (Inventory._id d) (Inventory._id it)) as [F|F]; [|auto].
  exfalso. apply (freshId_fresh inv). rewrite <- E, F.
  now apply (Current_In_ids items).
Qed.

Lemma Current_after_split item items inv dnew drest n target :
  Current (item :: items) inv ->
  NewOf target item n inv dnew ->
  RestOf item n drest ->
  Current items (upsert drest (upsert dnew inv)).
Proof.
  intros Hc Hn Hr.
  apply Current_save_item with item; [|now apply RestOf_id with n].
  apply Current_save_new; [assumption|now destruct Hn].
Qed.

Section RunFacts.

Variable target : InventoryStatus.

Lemma run_wf items n inv ok inv' :
  AllocRun target items n inv ok inv' -> wfInventory inv -> wfInventory inv'.
Proof.
  induction 1; intros Hwf; auto using wfInventory_upsert.
Qed.

(** With nothing left to take, the loop leaves the collection alone. *)
Lemma run_nothing items n inv ok inv' :
  AllocRun target items n inv ok inv' -> n <= 0 -> ok = true /\ inv' = inv.
Proof.
  destruct 1; intros Hn; try lia; now split.
Qed.

(** Frame: documents that are not items of the loop stay as they are. *)
Lemma run_frame items n inv ok inv' :
  AllocRun target items n inv ok inv' ->
  forall id, In id (ids inv) -> ~ In id (ids items) ->
             lookup id inv' = lookup id inv.
Proof.
  induction 1 as [ | | item items n inv d ok inv' Hn Hu Hw Hrun IH
                   | item items n inv dnew drest ok inv' Hn Hu Hnew Hrest Hrun IH
                   | | item items n inv dnew Hn Hu Hnew ];
    intros id Hin Hout; try reflexivity.
  - simpl in Hout. rewrite IH.
    + rewrite lookup_upsert, (WholeOf_id _ _ _ Hw).
      destruct (Nat.eqb_spec (Inventory._id item) id); [|reflexivity]. tauto.
    + apply In_ids_upsert. now left.
    + tauto.
  - simpl in Hout. rewrite IH.
    + rewrite !lookup_upsert, (RestOf_id _ _ _ Hrest), (new_id _ _ _ _ _ Hnew).
      destruct (Nat.eqb_spec (Inventory._id item) id); [tauto|].
      destruct (Nat.eqb_spec (freshId inv) id) as [E|E]; [|reflexivity].
      exfalso. apply (freshId_fresh inv). now rewrite E.
    + apply In_ids_upsert. left. apply In_ids_upsert. now left.
    + tauto.
  - rewrite lookup_upsert, (new_id _ _ _ _ _ Hnew).
    destruct (Nat.eqb_spec (freshId inv) id) as [E|E]; [|reflexivity].
    exfalso. apply (freshId_fresh inv). now rewrite E.
Qed.

(** Conservation: a loop that ran to its end keeps the quantity of every
    blood type. *)
Lemma run_conserves items n inv inv' :
  AllocRun target items n inv true inv' ->
  wfInventory inv -> Current items inv ->
  forall bt, quantityOf bt inv' = quantityOf bt inv.
Proof.
  intros Hrun. remember true as ok eqn:Hok.
  induction Hrun as [ | | item items n inv d ok inv' Hn Hu Hw Hrun IH
                      | item items n inv dnew drest ok inv' Hn Hu Hnew Hrest Hrun IH
                      | | ];
    intros Hwf Hc bt; try reflexivity; try discriminate.
  - destruct (Current_head _ _ _ Hc) as [Hl _].
    rewrite IH; auto using wfInventory_upsert.
    + rewrite <- (WholeOf_id _ _ _ Hw) in Hl.
      rewrite (quantityOf_upsert_old _ _ _ _ Hwf Hl).
      unfold share, ofType.
      rewrite (WholeOf_bloodType _ _ _ Hw), (WholeOf_units _ _ _ Hw). lia.
    + apply Current_save_item with item; [assumption|].
      now apply WholeOf_id with target.
  - destruct (Current_head _ _ _ Hc) as [Hl _].
    assert (Hfresh : ~ In (Inventory._id dnew) (ids inv)).
    { rewrite (new_id _ _ _ _ _ Hnew). apply freshId_fresh. }
    rewrite IH; auto using wfInventory_upsert.
    + assert (Hl' : lookup (Inventory._id drest) (upsert dnew inv) = Some item).
      { rewrite lookup_upsert, (RestOf_id _ _ _ Hrest).
        destruct (Nat.eqb_spec (Inventory._id dnew) (Inventory._id item)) as [E|E];
          [|assumption].
        exfalso. apply Hfresh. rewrite E.
        apply (Current_In_ids _ _ _ Hc). now left. }
      rewrite (quantityOf_upsert_old _ _ _ _ (wfInventory_upsert _ _ Hwf) Hl').
      rewrite (quantityOf_upsert_new _ _ _ Hfresh).
      unfold share, ofType.
      rewrite (RestOf_bloodType _ _ _ Hrest), (RestOf_units _ _ _ Hrest).
      rewrite (new_bloodType _ _ _ _ _ Hnew), (new_units _ _ _ _ _ Hnew).
      destruct (BloodType_eqb (Inventory.bloodType item) bt); lia.
    + now apply Current_after_split with item n target.
Qed.


(** Frame by blood type: when the items all have blood type [bt], the
    batches of the other types are untouched, even when a save throws. *)
Lemma run_otherTypes items n inv ok inv' bt :
  AllocRun target items n inv ok inv' ->
  wfInventory inv -> Current items inv ->
  Forall (fun it => ofType bt it = true) items ->
  otherTypes bt inv' = otherTypes bt inv.
Proof.
  induction 1 as [ | | item items n inv d ok inv' Hn Hu Hw Hrun IH
                   | item items n inv dnew drest ok inv' Hn Hu Hnew Hrest Hrun IH
                   | | item items n inv dnew Hn Hu Hnew ];
    intros Hwf Hc Hbt; try reflexivity.
  - destruct (Current_head _ _ _ Hc) as [Hl _].
    inversion_clear Hbt as [|? ? Hb Hbs].
    rewrite IH; auto using wfInventory_upsert.
    + rewrite <- (WholeOf_id _ _ _ Hw) in Hl.
      apply otherTypes_upsert_old with item; auto.
      unfold ofType. now rewrite (WholeOf_bloodType _ _ _ Hw).
    + apply Current_save_item with item; [assumption|].
      now apply WholeOf_id with target.
  - destruct (Current_head _ _ _ Hc) as [Hl _].
    inversion_clear Hbt as [|? ? Hb Hbs].
    assert (Hfresh : ~ In (Inventory._id dnew) (ids inv)).
    { rewrite (new_id _ _ _ _ _ Hnew). apply freshId_fresh. }
    rewrite IH; auto using wfInventory_upsert.
    + rewrite otherTypes_upsert_old with (d0 := item);
        auto using wfInventory_upsert.
      * apply otherTypes_upsert_new; [assumption|].
        unfold ofType. now rewrite (new_bloodType _ _ _ _ _ Hnew).
      * rewrite lookup_upsert, (RestOf_id _ _ _ Hrest).
        destruct (Nat.eqb_spec (Inventory._id dnew) (Inventory._id item)) as [E|E];
          [|assumption].
        exfalso. apply Hfresh. rewrite E.
        apply (Current_In_ids _ _ _ Hc). now left.
      * unfold ofType. now rewrite (RestOf_bloodType _ _ _ Hrest).
    + now apply Current_after_split with item n target.
  - inversion_clear Hbt as [|? ? Hb Hbs].
    apply otherTypes_upsert_new.
    + rewrite (new_id _ _ _ _ _ Hnew). apply freshId_fresh.
    + unfold ofType. now rewrite (new_bloodType _ _ _ _ _ Hnew).
Qed.

(** The loop consumes a prefix of its items: when the stored document of
    an item is no longer the item, every item in front of it was consumed
    whole. *)
Lemma run_prefix items n inv inv' :
  AllocRun target items n inv true inv' ->
  wfInventory inv -> Current items inv ->
  forall l1 b l2,
    items = l1 ++ b :: l2 ->
    lookup (Inventory._id b) inv' <> Some b ->
    forall b', In b' l1 ->
               exists d, lookup (Inventory._id b') inv' = Some d
                         /\ WholeOf target b' d.
Proof.
  intros Hrun. remember true as ok eqn:Hok.
  induction Hrun as [ | item items n inv Hn
                      | item items n inv d ok inv' Hn Hu Hw Hrun IH
                      | item items n inv dnew drest ok inv' Hn Hu Hnew Hrest Hrun IH
                      | | ];
    intros Hwf Hc l1 b l2 Hsplit Htouched b' Hb'; try discriminate.
  - destruct l1; discriminate.
  - exfalso. apply Htouched.
    destruct Hc as [_ Hc]. rewrite Forall_forall in Hc. apply Hc.
    rewrite Hsplit. apply in_elt.
  - destruct l1 as [|x l1]; [destruct Hb'|].
    injection Hsplit as <- Hsplit.
    assert (Hc' : Current items (upsert d inv)).
    { apply Current_save_item with item; [assumption|].
      now apply WholeOf_id with target. }
    destruct Hb' as [<-|Hb'].
    + exists d. split; [|assumption].
      destruct (Current_head _ _ _ Hc) as [_ Hout].
      rewrite (run_frame _ _ _ _ _ Hrun).
      * rewrite lookup_upsert, (WholeOf_id _ _ _ Hw). now rewrite Nat.eqb_refl.
      * apply In_ids_upsert. right. symmetry. now apply WholeOf_id with target.
      * assumption.
    + apply (IH Hok (wfInventory_upsert _ _ Hwf) Hc' l1 b l2); assumption.
  - destruct l1 as [|x l1]; [destruct Hb'|].
    injection Hsplit as <- Hsplit. exfalso. apply Htouched.
    destruct (run_nothing _ _ _ _ _ Hrun) as [_ ->]; [lia|].
    assert (Hc' : Current items (upsert drest (upsert dnew inv))).
    { now apply Current_after_split with item n target. }
    destruct Hc' as [_ Hc']. rewrite Forall_forall in Hc'. apply Hc'.
    rewrite Hsplit. apply in_elt.
Qed.

End RunFacts.

(** In a list sorted by expiry date, a document that expires strictly
    earlier than another one stands in front of it. *)
Lemma sorted_earlier_first items b b' :
  StronglySorted expiryLe items ->
  In b items -> In b' items ->
  Inventory.expiryDate b' < Inventory.expiryDate b ->
  exists l1 l2, items = l1 ++ b :: l2 /\ In b' l1.
Proof.
  induction items as [|x items IH]; intros Hs Hb Hb' Hlt; [destruct Hb|].
  inversion_clear Hs as [|? ? Hs' Hx]. rewrite Forall_forall in Hx.
  destruct Hb as [->|Hb].
  - exfalso. destruct Hb' as [->|Hb']; [lia|].
    specialize (Hx b' Hb'). unfold expiryLe in Hx. lia.
  - destruct Hb' as [->|Hb'].
    + destruct (in_split _ _ Hb) as [l1 [l2 ->]].
      exists (b' :: l1), l2. split; [reflexivity|now left].
    + destruct (IH Hs' Hb Hb' Hlt) as [l1 [l2 [-> Hin]]].
      exists (x :: l1), l2. split; [reflexivity|now right].
Qed.

(* ================================================================= *)
(** ** From the handlers to the run relation *)

(** What one iteration does, for a loop body of either server. *)
Definition BodyEffect (target : InventoryStatus) (item : Inventory.doc) (n : Z)
           (w : World) (r : Outcome (Flow Z)) (w' : World) : Prop :=
  requests w' = requests w /\ recipients w' = recipients w /\
  match r with
  | Ok (Break n') =>
      n <= 0 /\ n' = n /\ inventories w' = inventories w
  | Ok (Continue n') =>
      0 < n /\
      ((Inventory.units item <= n /\ n' = n - Inventory.units item /\
        exists d, WholeOf target item d
                  /\ inventories w' = upsert d (inventories w))
       \/
       (n < Inventory.units item /\ n' = 0 /\
        exists dnew drest,
          NewOf target item n (inventories w) dnew /\ RestOf item n drest
          /\ inventories w' = upsert drest (upsert dnew (inventories w))))
  | Thrown _ =>
      0 < n /\
      (inventories w' = inventories w
       \/
       (n < Inventory.units item /\
        exists dnew, NewOf target item n (inventories w) dnew
                     /\ inventories w' = upsert dnew (inventories w)))
  end.

Definition BodySpec (target : InventoryStatus)
           (body : Inventory.doc -> Z -> M (Flow Z)) : Prop :=
  forall item n w, BodyEffect target item n w (fst (body item n w)) (snd (body item n w)).

Ltac run_handler :=
  unfold bind, ret, Inventory_new, Inventory_save, Request_save,
    Recipient_findByIdAndUpdate, write, defaultNow, newDate,
    Request_findById, Inventory_aggregate_totalUnits,
    Inventory_find_sortExpiry, tryCatch; simpl.

Ltac split_faults env :=
  repeat match goal with
         | |- context [writeFault env ?k] =>
             let F := fresh "Hfault" in destruct (writeFault env k) eqn:F; simpl
         end.

Lemma deductBody_spec env : BodySpec used (ServerJs.deductBody env).
Proof.
  intros item n w. unfold BodyEffect, ServerJs.deductBody.
  destruct (Z.leb_spec n 0) as [Hn|Hn]; [run_handler; auto|].
  destruct (Z.leb_spec (Inventory.units item) n) as [Hu|Hu];
    run_handler; split_faults env; repeat split; auto.
  - left. repeat split; auto. eexists. split; [|reflexivity]. reflexivity.
  - right. split; [assumption|]. eexists.
    split; [|reflexivity]. constructor; reflexivity.
  - right. repeat split; auto. do 2 eexists.
    split; [|split; [|reflexivity]]; [constructor; reflexivity|reflexivity].
Qed.

Lemma reserveBody_spec env : BodySpec reserved (Reserve.reserveBody env).
Proof.
  intros item n w. unfold BodyEffect, Reserve.reserveBody.
  destruct (Z.leb_spec n 0) as [Hn|Hn]; [run_handler; auto|].
  destruct (Z.leb_spec (Inventory.units item) n) as [Hu|Hu];
    run_handler; split_faults env; repeat split; auto.
  - left. repeat split; auto. eexists. split; [|reflexivity]. reflexivity.
  - right. split; [assumption|]. eexists.
    split; [|reflexivity]. constructor; reflexivity.
  - right. repeat split; auto. do 2 eexists.
    split; [|split; [|reflexivity]]; [constructor; reflexivity|reflexivity].
Qed.


Definition completed {A} (r : Outcome A) : bool :=
  match r with Ok _ => true | Thrown _ => false end.

(** The loop only writes to the inventory, as a run of the relation. *)
Lemma forOf_run target body :
  BodySpec target body ->
  forall items n w,
    let r := forOf items body n w in
    requests (snd r) = requests w /\ recipients (snd r) = recipients w /\
    AllocRun target items n (inventories w) (completed (fst r))
             (inventories (snd r)).
Proof.
  intros Hbody items. induction items as [|item items IH]; intros n w; simpl.
  - repeat split. constructor.
  - unfold bind. specialize (Hbody item n w).
    destruct (body item n w) as [[[n'|n']|e] w1]; simpl in *;
      destruct Hbody as [Hr [Hc Hb]].
    + destruct Hb as [Hn [[Hu [-> [d [Hw Hi]]]]|[Hu [-> [dnew [drest [Hnew [Hrest Hi]]]]]]]];
        destruct (IH (n - Inventory.units item) w1) as [IH1 [IH2 IH3]];
        destruct (IH 0 w1) as [IH1' [IH2' IH3']];
        (split; [congruence|split; [congruence|]]).
      * rewrite Hi in IH3. now apply run_whole with d.
      * rewrite Hi in IH3'. now apply run_split with dnew drest.
    + destruct Hb as [Hn [-> Hi]]. rewrite Hi. repeat split; auto.
      now constructor.
    + destruct Hb as [Hn [Hi|[Hu [dnew [Hnew Hi]]]]]; rewrite Hi;
        repeat split; auto.
      * now constructor.
      * now constructor.
Qed.

(* ================================================================= *)
(** ** Anatomy of an approval *)

(** The quantity the handler compares with the request. *)
Definition totalAvailable (v : Variant) (env : Env) (req : Request.doc)
           (w : World) : Z :=
  match v with
  | Fulfilling =>
      sumUnits (filter (ServerJs.selectable (Request.bloodType req)
                          (clock env (ticks w))) (inventories w))
  | Reserving =>
      sumUnits (filter (Reserve.selectable (Request.bloodType req))
                  (inventories w))
  end.

(** The batches the handler is ready to take from: the documents its query
    matches.  [server.js] reads the clock a second time for this query. *)
Definition matching (v : Variant) (env : Env) (req : Request.doc)
           (w : World) : list Inventory.doc :=
  match v with
  | Fulfilling =>
      filter (ServerJs.selectable (Request.bloodType req)
                (clock env (S (ticks w)))) (inventories w)
  | Reserving =>
      filter (Reserve.selectable (Request.bloodType req)) (inventories w)
  end.

(** The same, in the order the loop visits them. *)
Definition selected (v : Variant) (env : Env) (req : Request.doc)
           (w : World) : list Inventory.doc :=
  sortExpiry env (matching v env req w).

Definition insufficientMessage (v : Variant) (req : Request.doc)
           (availableUnits : Z) : string :=
  match v with
  | Fulfilling =>
      ServerJs.insufficientMessage (Request.bloodType req) availableUnits
        (Request.units req)
  | Reserving =>
      Reserve.insufficientMessage availableUnits (Request.units req)
  end.

(** The status check of [server.js]; the second server has none. *)
Definition guardPasses (v : Variant) (req : Request.doc) : Prop :=
  match v with
  | Fulfilling => Request.status req = pending
  | Reserving => True
  end.

Definition transitionStatus (v : Variant) : RequestStatus :=
  match v with
  | Fulfilling => fulfilled
  | Reserving => approved
  end.

Record Transitioned (v : Variant) (req req' : Request.doc) : Prop := mkTransitioned {
  tr_id : Request._id req' = Request._id req;
  tr_bloodType : Request.bloodType req' = Request.bloodType req;
  tr_units : Request.units req' = Request.units req;
  tr_status : Request.status req' = transitionStatus v
}.

Definition Unchanged (w w' : World) : Prop :=
  inventories w' = inventories w /\ requests w' = requests w
  /\ recipients w' = recipients w.

(** How an approval that passed the checks ends: [ok] tells whether the
    loop ran to its end. *)
Inductive Ending (v : Variant) (req : Request.doc) (ok : bool)
          (resp : Response) (w w' : World) : Prop :=
| end_success req' :
    ok = true -> code resp = 200%nat ->
    Transitioned v req req' ->
    requests w' = upsertRequest req' (requests w) ->
    data resp = Some req' ->
    Ending v req ok resp w w'
| end_thrown :
    code resp = 500%nat ->
    requests w' = requests w -> recipients w' = recipients w ->
    Ending v req ok resp w w'
| end_thrown_recipient req' :
    v = Reserving -> ok = true -> code resp = 500%nat ->
    Transitioned v req req' ->
    requests w' = upsertRequest req' (requests w) ->
    recipients w' = recipients w ->
    Ending v req ok resp w w'.

Inductive Approval (v : Variant) (env : Env) (id : ObjectId)
          (w : World) (resp : Response) (w' : World) : Prop :=
| ap_not_found :
    lookupRequest id (requests w) = None ->
    code resp = 404%nat -> Unchanged w w' ->
    Approval v env id w resp w'
| ap_invalid_state req :
    v = Fulfilling ->
    lookupRequest id (requests w) = Some req ->
    Request.status req <> pending ->
    code resp = 400%nat ->
    error resp = Some ("Request status is "
                         ++ RequestStatus_toString (Request.status req)
                         ++ ". Only pending requests can be approved.")%string ->
    Unchanged w w' ->
    Approval v env id w resp w'
| ap_insufficient req :
    lookupRequest id (requests w) = Some req ->
    guardPasses v req ->
    totalAvailable v env req w < Request.units req ->
    code resp = 400%nat ->
    error resp = Some (insufficientMessage v req (totalAvailable v env req w)) ->
    Unchanged w w' ->
    Approval v env id w resp w'
| ap_allocated req ok :
    lookupRequest id (requests w) = Some req ->
    guardPasses v req ->
    Request.units req <= totalAvailable v env req w ->
    AllocRun (consumedStatus v) (selected v env req w) (Request.units req)
             (inventories w) ok (inventories w') ->
    Ending v req ok resp w w' ->
    Approval v env id w resp w'.

Lemma aggregate_total matches w :
  exists r, Inventory_aggregate_totalUnits matches w = (Ok r, w)
            /\ match r with totalUnits :: _ => totalUnits | [] => 0 end
               = sumUnits (filter matches (inventories w)).
Proof.
  unfold Inventory_aggregate_totalUnits.
  destruct (filter matches (inventories w)) as [|d ds]; eexists; split;
    reflexivity.
Qed.

Ltac run_approve :=
  unfold bind, ret, Inventory_save, Request_save,
    Recipient_findByIdAndUpdate, write, newDate,
    Request_findById, Inventory_find_sortExpiry, tryCatch; simpl.

Lemma ServerJs_approve_anatomy env id w :
  Approval Fulfilling env id w (fst (ServerJs.approve env (IdOf id) w))
           (snd (ServerJs.approve env (IdOf id) w)).
Proof.
  unfold ServerJs.approve. run_approve.
  destruct (lookupRequest id (requests w)) as [req|] eqn:Hreq; simpl.
  2:{ apply ap_not_found; [assumption|reflexivity|repeat split]. }
  destruct (RequestStatus_eqb_spec (Request.status req) pending) as [Hp|Hp]; simpl.
  2:{ apply ap_invalid_state with req; auto. repeat split. }
  match goal with
  | |- context [Inventory_aggregate_totalUnits ?m ?w1] =>
      destruct (aggregate_total m w1) as [r [Hr Ht]]; rewrite Hr; simpl in Ht |- *
  end.
  rewrite Ht.
  destruct (Z.ltb_spec
              (sumUnits (filter (ServerJs.selectable (Request.bloodType req)
                                   (clock env (ticks w))) (inventories w)))
              (Request.units req)) as [Hlt|Hge]; simpl.
  { apply ap_insufficient with req; auto. repeat split. }
  match goal with
  | |- context [forOf ?items ?body ?n ?w1] =>
      pose proof (forOf_run used body (deductBody_spec env) items n w1)
        as [Hrq [Hrc Hrun]];
      destruct (forOf items body n w1) as [[n'|e] w2]; simpl in *
  end.
  - split_faults env.
    + eapply ap_allocated with (req := req) (ok := true); eauto.
      apply end_thrown; simpl; congruence.
    + eapply ap_allocated with (req := req) (ok := true); eauto.
      eapply end_success; simpl; try reflexivity; [|congruence].
      constructor; reflexivity.
  - eapply ap_allocated with (req := req) (ok := false); eauto.
    apply end_thrown; simpl; congruence.
Qed.

Lemma Reserve_approve_anatomy env id w :
  Approval Reserving env id w (fst (Reserve.approve env (IdOf id) w))
           (snd (Reserve.approve env (IdOf id) w)).
Proof.
  unfold Reserve.approve. run_approve.
  destruct (lookupRequest id (requests w)) as [req|] eqn:Hreq; simpl.
  2:{ apply ap_not_found; [assumption|reflexivity|repeat split]. }
  match goal with
  | |- context [Inventory_aggregate_totalUnits ?m ?w1] =>
      destruct (aggregate_total m w1) as [r [Hr Ht]]; rewrite Hr; simpl in Ht |- *
  end.
  rewrite Ht.
  destruct (Z.ltb_spec
              (sumUnits (filter (Reserve.selectable (Request.bloodType req))
                           (inventories w)))
              (Request.units req)) as [Hlt|Hge]; simpl.
  { apply ap_insufficient with req; simpl; auto. repeat split. }
  match goal with
  | |- context [forOf ?items ?body ?n ?w1] =>
      pose proof (forOf_run reserved body (reserveBody_spec env) items n w1)
        as [Hrq [Hrc Hrun]];
      destruct (forOf items body n w1) as [[n'|e] w2]; simpl in *
  end.
  - split_faults env.
    + eapply ap_allocated with (req := req) (ok := true); simpl; eauto.
      apply end_thrown; simpl; congruence.
    + eapply ap_allocated with (req := req) (ok := true); simpl; eauto.
      eapply end_thrown_recipient; simpl; try reflexivity;
        [|rewrite Hrq; reflexivity|congruence].
      constructor; reflexivity.
    + eapply ap_allocated with (req := req) (ok := true); simpl; eauto.
      eapply end_success; simpl; try reflexivity; [|congruence].
      constructor; reflexivity.
  - eapply ap_allocated with (req := req) (ok := false); simpl; eauto.
    apply end_thrown; simpl; congruence.
Qed.

Lemma approve_anatomy v env id w resp w' :
  approve v env id w = (resp, w') -> Approval v env id w resp w'.
Proof.
  intros H. destruct v; simpl in H.
  - pose proof (ServerJs_approve_anatomy env id w) as A. now rewrite H in A.
  - pose proof (Reserve_approve_anatomy env id w) as A. now rewrite H in A.
Qed.

(* ================================================================= *)
(** ** The query result *)

Lemma NoDup_ids_filter p l : wfInventory l -> wfInventory (filter p l).
Proof.
  unfold wfInventory, ids. induction l as [|x l IH]; simpl; intros H; [constructor|].
  inversion_clear H as [|? ? Hx Hl].
  destruct (p x); simpl; [|auto].
  constructor; [|auto].
  intros Hin. apply Hx. apply in_map_iff in Hin as [y [E Hy]].
  apply filter_In in Hy as [Hy _]. apply in_map_iff. eauto.
Qed.

Section Selected.

Variables (v : Variant) (env : Env) (req : Request.doc) (w : World).
Hypothesis sort_ok : SortsByExpiry (sortExpiry env).

Lemma selected_In d : In d (selected v env req w) <-> In d (matching v env req w).
Proof.
  unfold selected. destruct (sort_ok (matching v env req w)) as [Hp _].
  split; apply Permutation_in; [assumption|now apply Permutation_sym].
Qed.

Lemma selected_sorted : StronglySorted expiryLe (selected v env req w).
Proof. apply sort_ok. Qed.

Lemma matching_stored d : In d (matching v env req w) -> In d (inventories w).
Proof. destruct v; simpl; intros H; now apply filter_In in H. Qed.

Lemma matching_ofType d :
  In d (matching v env req w) -> ofType (Request.bloodType req) d = true.
Proof.
  destruct v; simpl; intros H; apply filter_In in H as [_ H];
    unfold ServerJs.selectable, Reserve.selectable in H;
    repeat (apply andb_prop in H as [H ?]); exact H.
Qed.

Lemma matching_available d :
  In d (matching v env req w) -> Inventory.status d = available.
Proof.
  destruct v; simpl; intros H; apply filter_In in H as [_ H];
    unfold ServerJs.selectable, Reserve.selectable in H;
    repeat (apply andb_prop in H as [H ?]);
    now destruct (InventoryStatus_eqb_spec (Inventory.status d) available).
Qed.

Lemma selected_ofType :
  Forall (fun it => ofType (Request.bloodType req) it = true)
         (selected v env req w).
Proof.
  apply Forall_forall. intros d Hd. apply matching_ofType.
  now apply selected_In.
Qed.

Lemma selected_current :
  wfInventory (inventories w) ->
  Current (selected v env req w) (inventories w).
Proof.
  intros Hwf. split.
  - unfold selected. destruct (sort_ok (matching v env req w)) as [Hp _].
    apply Permutation_NoDup with (ids (matching v env req w)).
    + apply Permutation_map. now apply Permutation_sym.
    + destruct v; simpl; now apply NoDup_ids_filter.
  - apply Forall_forall. intros d Hd. apply lookup_of_In; [assumption|].
    apply matching_stored. now apply selected_In.
Qed.

End Selected.

(* ================================================================= *)
(** ** Quantities by status *)

Definition quantityIn (bt : BloodType) (s : InventoryStatus)
           (l : list Inventory.doc) : Z :=
  sumUnits (filter (fun d => ofType bt d
                             && InventoryStatus_eqb (Inventory.status d) s) l).



(* ================================================================= *)
(** ** Messages *)

Definition Mentions (msg part : string) : Prop :=
  exists pre post, msg = (pre ++ part ++ post)%string.

Lemma string_app_assoc (a b c : string) :
  ((a ++ b) ++ c = a ++ (b ++ c))%string.
Proof. induction a as [|x a IH]; simpl; [reflexivity|now rewrite IH]. Qed.

Lemma insufficientMessage_mentions v req availableUnits :
  Mentions (insufficientMessage v req availableUnits)
           (Number_toString availableUnits)
  /\ Mentions (insufficientMessage v req availableUnits)
              (Number_toString (Request.units req)).
Proof.
  destruct v; simpl;
    unfold ServerJs.insufficientMessage, Reserve.insufficientMessage, Mentions.
  - split.
    + exists ("Insufficient " ++ BloodType_toString (Request.bloodType req)
                ++ " blood. Available: ")%string,
        (", Required: " ++ Number_toString (Request.units req) ++ ".")%string.
      now rewrite !string_app_assoc.
    + exists ("Insufficient " ++ BloodType_toString (Request.bloodType req)
                ++ " blood. Available: " ++ Number_toString availableUnits
                ++ ", Required: ")%string, "."%string.
      now rewrite !string_app_assoc.
  - split.
    + exists "Insufficient blood units. Available: "%string,
        (", Required: " ++ Number_toString (Request.units req))%string.
      reflexivity.
    + exists ("Insufficient blood units. Available: "
                ++ Number_toString availableUnits ++ ", Required: ")%string,
        EmptyString.
      rewrite !string_app_assoc.
      do 3 f_equal.
      induction (Number_toString (Request.units req)) as [|c s IH]; simpl;
        [reflexivity|now rewrite <- IH].
Qed.

(* ================================================================= *)
(** ** Scenarios *)

(** Two A+ batches, 3 units expiring in 5 days and 4 units expiring in 10
    days, and a pending request for 5 units of A+. *)
Definition day : Z := 86400000.

Definition batchA : Inventory.doc :=
  Inventory.mk 1%nat A_pos 3 None 0 (100 + 5 * day) available 10 10.

Definition batchB : Inventory.doc :=
  Inventory.mk 2%nat A_pos 4 (Some 9%nat) 0 (100 + 10 * day) available 20 20.

Definition batchOther : Inventory.doc :=
  Inventory.mk 3%nat O_neg 3 None 0 (100 + 7 * day) available 30 30.

Definition requestA (st : RequestStatus) (n : Z) : Request.doc :=
  Request.mk 7%nat (Some 5%nat) A_pos n st None None 50.

Definition requestO : Request.doc :=
  Request.mk 8%nat (Some 6%nat) O_neg 10 pending None None 60.

Definition scenarioWorld : World :=
  mkWorld [batchA; batchB; batchOther] [requestA pending 5; requestO]
          [Recipient.mk 5%nat pending 50; Recipient.mk 6%nat pending 60]
          0%nat 0%nat.

Lemma scenarioWorld_wf : wfInventory (inventories scenarioWorld).
Proof.
  unfold wfInventory. simpl.
  repeat constructor; simpl; intuition discriminate.
Defined.

(** The scenario on both servers: the first batch is consumed whole, the
    second is split into 2 consumed and 2 available units. *)
Example scenario_fulfilled :
  let w' := snd (approve Fulfilling (calmEnv 100) 7%nat scenarioWorld) in
  quantityIn A_pos used (inventories w') = 5
  /\ quantityIn A_pos available (inventories w') = 2
  /\ option_map Request.status (lookupRequest 7%nat (requests w')) = Some fulfilled.
Proof. vm_compute. repeat split; reflexivity. Qed.

Example scenario_reserved :
  let w' := snd (approve Reserving (calmEnv 100) 7%nat scenarioWorld) in
  quantityIn A_pos reserved (inventories w') = 5
  /\ quantityIn A_pos available (inventories w') = 2
  /\ option_map Request.status (lookupRequest 7%nat (requests w')) = Some approved.
Proof. vm_compute. repeat split; reflexivity. Qed.

(* ================================================================= *)
(** ** Properties of the approval *)

(** A successful approval leaves a prefix of the selected batches consumed:
    when a selected batch was touched, every batch selected before it was
    consumed whole. *)
Lemma approve_consumes_prefix v env id w resp w' req l1 b l2 b' :
  SortsByExpiry (sortExpiry env) ->
  wfInventory (inventories w) ->
  approve v env id w = (resp, w') ->
  code resp = 200%nat ->
  lookupRequest id (requests w) = Some req ->
  selected v env req w = l1 ++ b :: l2 ->
  In b' l1 ->
  lookup (Inventory._id b) (inventories w') <> Some b ->
  exists d, lookup (Inventory._id b') (inventories w') = Some d
            /\ Inventory.status d = consumedStatus v
            /\ Inventory.units d = Inventory.units b'.
Proof.
  intros Hsort Hwf Hrun Hcode Hreq Hsel Hb' Htouched.
  apply approve_anatomy in Hrun.
  destruct Hrun as [Hnone Hc _ | req0 _ _ _ Hc _ _ | req0 _ _ _ Hc _ _
                    | req0 ok Hreq0 _ _ Hrun Hend ];
    try (rewrite Hc in Hcode; discriminate).
  assert (req0 = req) as -> by congruence.
  destruct Hend as [req' Hok _ _ _ _ | Hc _ _ | req' _ _ Hc _ _ _];
    try (rewrite Hc in Hcode; discriminate).
  subst ok.
  destruct (run_prefix _ _ _ _ _ Hrun Hwf
              (selected_current v env req w Hsort Hwf)
              l1 b l2 Hsel Htouched b' Hb') as [d [Hd Hw]].
  exists d. split; [assumption|].
  split; [now apply WholeOf_status with b'|now apply WholeOf_units with (consumedStatus v)].
Qed.





(** C2 (insufficient stock).  When the quantity the handler finds available
    for the blood type of a pending request is less than the requested
    quantity, the approval answers 400 with a message that prints both
    quantities, writes to no batch and leaves the request as it was,
    pending. *)
Theorem approve_insufficient_stock v env id w req resp w' :
  approve v env id w = (resp, w') ->
  lookupRequest id (requests w) = Some req ->
  Request.status req = pending ->
  totalAvailable v env req w < Request.units req ->
  code resp = 400%nat
  /\ (exists msg,
         error resp = Some msg
         /\ Mentions msg (Number_toString (totalAvailable v env req w))
         /\ Mentions msg (Number_toString (Request.units req)))
  /\ inventories w' = inventories w
  /\ requests w' = requests w
  /\ (exists r, lookupRequest id (requests w') = Some r
                /\ Request.status r = pending).
Proof.
  intros Hrun Hreq Hpending Hlt.
  apply approve_anatomy in Hrun.
  destruct Hrun as [Hnone _ _ | req0 _ Hreq0 Hst _ _ _
                    | req0 Hreq0 _ _ Hc Herr [Hi [Hr _]]
                    | req0 ok Hreq0 _ Hge _ _ ].
  - congruence.
  - assert (req0 = req) as -> by congruence. contradiction.
  - assert (req0 = req) as -> by congruence.
    split; [assumption|]. split.
    + eexists. split; [exact Herr|]. apply insufficientMessage_mentions.
    + repeat split; auto. exists req. split; [congruence|assumption].
  - assert (req0 = req) as -> by congruence. lia.
Qed.

Lemma approve_insufficient_stock_witness :
  let w := scenarioWorld in
  let r := approve Fulfilling (calmEnv 100) 8%nat w in
  code (fst r) = 400%nat
  /\ (exists msg,
         error (fst r) = Some msg
         /\ Mentions msg (Number_toString (totalAvailable Fulfilling (calmEnv 100) requestO w))
         /\ Mentions msg (Number_toString (Request.units requestO)))
  /\ inventories (snd r) = inventories w
  /\ requests (snd r) = requests w
  /\ (exists r0, lookupRequest 8%nat (requests (snd r)) = Some r0
                 /\ Request.status r0 = pending).
Proof.
  intros w r.
  apply (approve_insufficient_stock Fulfilling (calmEnv 100) 8%nat w requestO
           (fst r) (snd r)).
  - apply surjective_pairing.
  - reflexivity.
  - reflexivity.
  - vm_compute. reflexivity.
Defined.

(** C4 (earliest expiry first).  Among the batches the handler's query
    matches for the blood type of the request, a batch is touched by a
    successful approval (consumed whole or split) only if every matched
    batch with a strictly earlier expiry date was consumed whole. *)
Theorem approve_earliest_expiry_first v env id w resp w' req b b' :
  SortsByExpiry (sortExpiry env) ->
  wfInventory (inventories w) ->
  approve v env id w = (resp, w') ->
  code resp = 200%nat ->
  lookupRequest id (requests w) = Some req ->
  In b (matching v env req w) ->
  In b' (matching v env req w) ->
  Inventory.expiryDate b' < Inventory.expiryDate b ->
  lookup (Inventory._id b) (inventories w') <> Some b ->
  exists d, lookup (Inventory._id b') (inventories w') = Some d
            /\ Inventory.status d = consumedStatus v
            /\ Inventory.units d = Inventory.units b'.
Proof.
  intros Hsort Hwf Hrun Hcode Hreq Hb Hb' Hlt Htouched.
  apply (selected_In v env req w Hsort) in Hb, Hb'.
  destruct (sorted_earlier_first _ b b' (selected_sorted v env req w Hsort)
              Hb Hb' Hlt) as [l1 [l2 [Hsel Hin]]].
  now apply (approve_consumes_prefix v env id w resp w' req l1 b l2 b').
Qed.

Lemma approve_earliest_expiry_first_witness :
  let r := approve Fulfilling (calmEnv 100) 7%nat scenarioWorld in
  exists d, lookup (Inventory._id batchA) (inventories (snd r)) = Some d
            /\ Inventory.status d = used
            /\ Inventory.units d = Inventory.units batchA.
Proof.
  intros r.
  apply (approve_earliest_expiry_first Fulfilling (calmEnv 100) 7%nat
           scenarioWorld (fst r) (snd r) (requestA pending 5) batchB batchA).
  - apply sortStable_contract.
  - apply scenarioWorld_wf.
  - apply surjective_pairing.
  - reflexivity.
  - reflexivity.
  - simpl. right. left. reflexivity.
  - simpl. left. reflexivity.
  - vm_compute. reflexivity.
  - vm_compute. discriminate.
Defined.

(** C9 as the code has it.  No creation-order key is part of the sort: two
    matched batches with the same expiry date are taken in the order in
    which the database returns them, and a batch is touched only if every
    batch returned before it was consumed whole. *)
Theorem approve_ties_in_returned_order v env id w resp w' req l1 b l2 b' :
  SortsByExpiry (sortExpiry env) ->
  wfInventory (inventories w) ->
  approve v env id w = (resp, w') ->
  code resp = 200%nat ->
  lookupRequest id (requests w) = Some req ->
  selected v env req w = l1 ++ b :: l2 ->
  In b' l1 ->
  Inventory.expiryDate b' = Inventory.expiryDate b ->
  lookup (Inventory._id b) (inventories w') <> Some b ->
  exists d, lookup (Inventory._id b') (inventories w') = Some d
            /\ Inventory.status d = consumedStatus v
            /\ Inventory.units d = Inventory.units b'.
Proof.
  intros Hsort Hwf Hrun Hcode Hreq Hsel Hin _ Htouched.
  now apply (approve_consumes_prefix v env id w resp w' req l1 b l2 b').
Qed.

(** Two A+ batches with the same expiry date; [tieOld] was created first. *)
Definition tieOld : Inventory.doc :=
  Inventory.mk 1%nat A_pos 3 None 0 (100 + 5 * day) available 10 10.

Definition tieYoung : Inventory.doc :=
  Inventory.mk 2%nat A_pos 3 None 0 (100 + 5 * day) available 20 20.

Definition tieWorld : World :=
  mkWorld [tieOld; tieYoung] [requestA pending 3] [] 0%nat 0%nat.

(** The same batches, and a request that needs one unit of the second. *)
Definition tieWorldSplit : World :=
  mkWorld [tieOld; tieYoung] [requestA pending 4] [] 0%nat 0%nat.

Definition tieEnv : Env :=
  mkEnv (fun k => 100 + Z.of_nat k) (fun _ => None) sortReversing.

Lemma tieWorld_wf : wfInventory (inventories tieWorld).
Proof.
  unfold wfInventory. simpl. repeat constructor; simpl; intuition discriminate.
Defined.

Lemma approve_ties_in_returned_order_witness :
  let r := approve Fulfilling tieEnv 7%nat tieWorldSplit in
  exists d, lookup (Inventory._id tieYoung) (inventories (snd r)) = Some d
            /\ Inventory.status d = used
            /\ Inventory.units d = Inventory.units tieYoung.
Proof.
  intros r.
  apply (approve_ties_in_returned_order Fulfilling tieEnv 7%nat
           tieWorldSplit (fst r) (snd r) (requestA pending 4) [tieYoung] tieOld [] tieYoung).
  - apply sortReversing_contract.
  - apply tieWorld_wf.
  - apply surjective_pairing.
  - reflexivity.
  - reflexivity.
  - reflexivity.
  - left. reflexivity.
  - reflexivity.
  - vm_compute. discriminate.
Defined.

(** The tie-break by creation order: of two matched batches with the same
    expiry date, the one created later is touched only if the one created
    earlier was consumed whole. *)
Definition OlderTieFirst (v : Variant) (env : Env) (id : ObjectId) (w : World)
  : Prop :=
  forall req b b',
    lookupRequest id (requests w) = Some req ->
    In b (matching v env req w) ->
    In b' (matching v env req w) ->
    Inventory.expiryDate b' = Inventory.expiryDate b ->
    Inventory.createdAt b' < Inventory.createdAt b ->
    lookup (Inventory._id b) (inventories (snd (approve v env id w))) <> Some b ->
    exists d,
      lookup (Inventory._id b') (inventories (snd (approve v env id w))) = Some d
      /\ Inventory.status d = consumedStatus v
      /\ Inventory.units d = Inventory.units b'.

(** With a database that returns the younger of two tied batches first,
    which the sort on [expiryDate] alone allows, the approval succeeds,
    consumes the younger batch and leaves the older one untouched. *)
Lemma approve_tie_takes_younger :
  SortsByExpiry (sortExpiry tieEnv)
  /\ code (fst (approve Fulfilling tieEnv 7%nat tieWorld)) = 200%nat
  /\ ~ OlderTieFirst Fulfilling tieEnv 7%nat tieWorld.
Proof.
  split; [apply sortReversing_contract|]. split; [reflexivity|].
  intros H.
  destruct (H (requestA pending 3) tieYoung tieOld) as [d [Hd [Hs _]]].
  - reflexivity.
  - simpl. right. left. reflexivity.
  - simpl. left. reflexivity.
  - reflexivity.
  - simpl. lia.
  - vm_compute. discriminate.
  - vm_compute in Hd. injection Hd as <-. discriminate.
Qed.

(* ----------------------------------------------------------------- *)
(** *** Frame *)

Lemma lookupRequest_id id l r : lookupRequest id l = Some r -> Request._id r = id.
Proof.
  unfold lookupRequest. intros H. apply find_some in H as [_ H].
  now apply Nat.eqb_eq in H.
Qed.

Lemma lookupRequest_upsertRequest_other id r l :
  id <> Request._id r ->
  lookupRequest id (upsertRequest r l) = lookupRequest id l.
Proof.
  intros Hne. unfold upsertRequest, lookupRequest.
  destruct (existsb _ l).
  - induction l as [|x l IH]; simpl; [reflexivity|].
    rewrite IH.
    destruct (Nat.eqb_spec (Request._id x) (Request._id r)) as [E|E];
      destruct (Nat.eqb_spec (Request._id x) id) as [F|F];
      destruct (Nat.eqb_spec (Request._id r) id) as [G|G];
      congruence.
  - induction l as [|x l IH]; simpl.
    + destruct (Nat.eqb_spec (Request._id r) id); congruence.
    + now rewrite IH.
Qed.

Lemma otherTypes_In bt d l :
  In d (otherTypes bt l) <-> In d l /\ Inventory.bloodType d <> bt.
Proof.
  unfold otherTypes, ofType. rewrite filter_In.
  destruct (BloodType_eqb_spec (Inventory.bloodType d) bt); simpl;
    intuition congruence.
Qed.

(** C10 (frame).  A successful approval leaves the batches of every other
    blood type exactly as they were, creates or changes only batches of the
    blood type of the request, and leaves every other request as it was. *)
Theorem approve_frame v env id w resp w' req :
  SortsByExpiry (sortExpiry env) ->
  wfInventory (inventories w) ->
  approve v env id w = (resp, w') ->
  code resp = 200%nat ->
  lookupRequest id (requests w) = Some req ->
  otherTypes (Request.bloodType req) (inventories w')
  = otherTypes (Request.bloodType req) (inventories w)
  /\ (forall d, In d (inventories w') -> ~ In d (inventories w) ->
                Inventory.bloodType d = Request.bloodType req)
  /\ (forall d, In d (inventories w) -> ~ In d (inventories w') ->
                Inventory.bloodType d = Request.bloodType req)
  /\ (forall id', id' <> id ->
                  lookupRequest id' (requests w') = lookupRequest id' (requests w)).
Proof.
  intros Hsort Hwf Hrun Hcode Hreq.
  apply approve_anatomy in Hrun.
  destruct Hrun as [Hnone Hc _ | req0 _ _ _ Hc _ _ | req0 _ _ _ Hc _ _
                    | req0 ok Hreq0 _ _ Hrun Hend ];
    try (rewrite Hc in Hcode; discriminate).
  assert (req0 = req) as -> by congruence.
  destruct Hend as [req' Hok _ Htr Hrq _ | Hc _ _ | req' _ _ Hc _ _ _];
    try (rewrite Hc in Hcode; discriminate).
  assert (Hother : otherTypes (Request.bloodType req) (inventories w')
                   = otherTypes (Request.bloodType req) (inventories w)).
  { apply (run_otherTypes _ _ _ _ _ _ _ Hrun Hwf).
    - now apply selected_current.
    - now apply selected_ofType. }
  split; [assumption|]. split; [|split].
  - intros d Hd Hnew.
    destruct (BloodType_eqb_spec (Inventory.bloodType d) (Request.bloodType req))
      as [E|E]; [assumption|].
    exfalso. apply Hnew.
    apply (otherTypes_In (Request.bloodType req)). rewrite <- Hother.
    now apply otherTypes_In.
  - intros d Hd Hgone.
    destruct (BloodType_eqb_spec (Inventory.bloodType d) (Request.bloodType req))
      as [E|E]; [assumption|].
    exfalso. apply Hgone.
    apply (otherTypes_In (Request.bloodType req)). rewrite Hother.
    now apply otherTypes_In.
  - intros id' Hne. rewrite Hrq.
    apply lookupRequest_upsertRequest_other.
    rewrite (tr_id _ _ _ Htr), (lookupRequest_id _ _ _ Hreq). exact Hne.
Qed.

Lemma approve_frame_witness :
  let w := scenarioWorld in
  let r := approve Reserving (calmEnv 100) 7%nat w in
  otherTypes A_pos (inventories (snd r)) = otherTypes A_pos (inventories w)
  /\ (forall d, In d (inventories (snd r)) -> ~ In d (inventories w) ->
                Inventory.bloodType d = A_pos)
  /\ (forall d, In d (inventories w) -> ~ In d (inventories (snd r)) ->
                Inventory.bloodType d = A_pos)
  /\ (forall id', id' <> 7%nat ->
                  lookupRequest id' (requests (snd r)) = lookupRequest id' (requests w)).
Proof.
  intros w r.
  apply (approve_frame Reserving (calmEnv 100) 7%nat w (fst r) (snd r)
           (requestA pending 5)).
  - apply sortStable_contract.
  - apply scenarioWorld_wf.
  - apply surjective_pairing.
  - reflexivity.
  - reflexivity.
Defined.

(* ----------------------------------------------------------------- *)
(** *** The split *)

(** C5 (split).  When the loop body meets an available batch that holds
    more than the [Q] units still needed, and its two saves go through, the
    collection afterwards is the old one with the batch replaced by itself
    with [Q] units less, still available, and one new document appended:
    [Q] units in the consumed status, with the blood type, expiry date and
    donor of the batch.  Nothing is left to take. *)
Theorem split_correct v env item Q w :
  0 < Q -> Q < Inventory.units item ->
  Inventory.status item = available ->
  lookup (Inventory._id item) (inventories w) = Some item ->
  writeFault env (writes w) = None ->
  writeFault env (S (writes w)) = None ->
  exists dnew drest w',
    allocBody v env item Q w = (Ok (Continue 0), w')
    /\ inventories w' = replaceDoc drest (inventories w) ++ [dnew]
    /\ List.length (inventories w') = S (List.length (inventories w))
    /\ (~ In (Inventory._id dnew) (ids (inventories w))
        /\ Inventory.units dnew = Q
        /\ Inventory.status dnew = consumedStatus v
        /\ Inventory.bloodType dnew = Inventory.bloodType item
        /\ Inventory.expiryDate dnew = Inventory.expiryDate item
        /\ Inventory.donorId dnew = Inventory.donorId item)
    /\ (Inventory._id drest = Inventory._id item
        /\ Inventory.units drest = Inventory.units item - Q
        /\ Inventory.status drest = available
        /\ Inventory.bloodType drest = Inventory.bloodType item
        /\ Inventory.expiryDate drest = Inventory.expiryDate item
        /\ Inventory.donorId drest = Inventory.donorId item).
Proof.
  intros HQ Hlt Hst Hstored Hf1 Hf2.
  assert (Hin : In (Inventory._id item) (ids (inventories w))).
  { destruct (lookup_Some _ _ _ Hstored) as [Hin _]. now apply in_map. }
  pose proof (freshId_fresh (inventories w)) as Hfresh.
  assert (Hne : Inventory._id item <> freshId (inventories w)) by congruence.
  assert (Hshape : forall dnew drest,
             Inventory._id dnew = freshId (inventories w) ->
             Inventory._id drest = Inventory._id item ->
             upsert drest (upsert dnew (inventories w))
             = replaceDoc drest (inventories w) ++ [dnew]).
  { intros dnew drest E1 E2.
    rewrite (upsert_new dnew) by now rewrite E1.
    rewrite upsert_old.
    - unfold replaceDoc. rewrite map_app. simpl.
      destruct (Nat.eqb_spec (Inventory._id dnew) (Inventory._id drest));
        [congruence|reflexivity].
    - unfold ids. rewrite map_app, in_app_iff. left. now rewrite E2. }
  destruct v; unfold allocBody, ServerJs.deductBody, Reserve.reserveBody;
    (destruct (Z.leb_spec Q 0); [lia|]);
    (destruct (Z.leb_spec (Inventory.units item) Q); [lia|]);
    run_handler; rewrite Hf1; simpl; rewrite Hf2; simpl;
    do 3 eexists; (split; [reflexivity|]); simpl;
    rewrite Hshape by reflexivity;
    (split; [reflexivity|]);
    (split; [unfold replaceDoc; rewrite length_app, length_map; simpl; lia|]);
    simpl; repeat split; auto.
Qed.

Lemma split_correct_witness :
  exists dnew drest w',
    allocBody Fulfilling (calmEnv 100) batchB 2 scenarioWorld
    = (Ok (Continue 0), w')
    /\ inventories w' = replaceDoc drest (inventories scenarioWorld) ++ [dnew]
    /\ List.length (inventories w') = S (List.length (inventories scenarioWorld))
    /\ (~ In (Inventory._id dnew) (ids (inventories scenarioWorld))
        /\ Inventory.units dnew = 2
        /\ Inventory.status dnew = used
        /\ Inventory.bloodType dnew = Inventory.bloodType batchB
        /\ Inventory.expiryDate dnew = Inventory.expiryDate batchB
        /\ Inventory.donorId dnew = Inventory.donorId batchB)
    /\ (Inventory._id drest = Inventory._id batchB
        /\ Inventory.units drest = Inventory.units batchB - 2
        /\ Inventory.status drest = available
        /\ Inventory.bloodType drest = Inventory.bloodType batchB
        /\ Inventory.expiryDate drest = Inventory.expiryDate batchB
        /\ Inventory.donorId drest = Inventory.donorId batchB).
Proof.
  apply (split_correct Fulfilling (calmEnv 100) batchB 2 scenarioWorld);
    try reflexivity; simpl; lia.
Defined.

(* ----------------------------------------------------------------- *)
(** *** Which batches an approval can touch *)

(** Whatever the outcome, a stored batch that an approval changes is one
    that its query matched. *)
Lemma approve_touches_only_matching v env id w resp w' req b :
  SortsByExpiry (sortExpiry env) ->
  wfInventory (inventories w) ->
  approve v env id w = (resp, w') ->
  lookupRequest id (requests w) = Some req ->
  In b (inventories w) ->
  lookup (Inventory._id b) (inventories w') <> Some b ->
  In b (matching v env req w).
Proof.
  intros Hsort Hwf Hrun Hreq Hb Htouched.
  pose proof (lookup_of_In _ _ Hwf Hb) as Hlb.
  apply approve_anatomy in Hrun.
  destruct Hrun as [Hnone _ [Hi _] | req0 _ _ _ _ _ [Hi _] | req0 _ _ _ _ _ [Hi _]
                    | req0 ok Hreq0 _ _ Hrun _ ];
    try (exfalso; apply Htouched; rewrite Hi; exact Hlb).
  assert (req0 = req) as -> by congruence.
  destruct (in_dec Nat.eq_dec (Inventory._id b) (ids (selected v env req w)))
    as [Hin|Hout].
  - apply in_map_iff in Hin as [b0 [E Hb0]].
    apply (selected_In v env req w Hsort) in Hb0.
    pose proof (lookup_of_In _ _ Hwf (matching_stored _ _ _ _ _ Hb0)) as Hl0.
    rewrite E, Hlb in Hl0. injection Hl0 as ->. assumption.
  - exfalso. apply Htouched.
    rewrite (run_frame _ _ _ _ _ _ Hrun); [assumption| |assumption].
    now apply in_map.
Qed.

(** [server.js]: a batch it changes is of the requested blood
    type, has status available and expires strictly after the time read
    for the query; the quantity it compares with the request counts only
    such batches, at the time read for the check. *)
Lemma Fulfilling_touches_only_unexpired env id w resp w' req b :
  SortsByExpiry (sortExpiry env) ->
  wfInventory (inventories w) ->
  approve Fulfilling env id w = (resp, w') ->
  lookupRequest id (requests w) = Some req ->
  In b (inventories w) ->
  lookup (Inventory._id b) (inventories w') <> Some b ->
  Inventory.bloodType b = Request.bloodType req
  /\ Inventory.status b = available
  /\ clock env (S (ticks w)) < Inventory.expiryDate b.
Proof.
  intros Hsort Hwf Hrun Hreq Hb Htouched.
  pose proof (approve_touches_only_matching Fulfilling env id w resp w' req b
                Hsort Hwf Hrun Hreq Hb Htouched) as Hm.
  simpl in Hm. apply filter_In in Hm as [_ Hm].
  unfold ServerJs.selectable in Hm.
  apply andb_prop in Hm as [Hm Hexp]. apply andb_prop in Hm as [Hbt Hst].
  split; [now destruct (BloodType_eqb_spec (Inventory.bloodType b)
                          (Request.bloodType req))|].
  split; [now destruct (InventoryStatus_eqb_spec (Inventory.status b) available)|].
  now apply Z.ltb_lt.
Qed.

(** An A+ batch whose expiry date has passed but which no sweep has marked. *)
Definition staleBatch : Inventory.doc :=
  Inventory.mk 1%nat A_pos 3 None 0 50 available 10 10.

Definition staleWorld : World :=
  mkWorld [staleBatch] [requestA pending 2] [Recipient.mk 5%nat pending 50]
          0%nat 0%nat.

(** C7 on the second server.  Its approval runs no sweep and its queries do
    not look at [expiryDate]: a batch that expired before the approval is
    counted as available and reserved.  [server.js] refuses the same
    request for lack of stock. *)
Theorem reserve_consumes_expired_batch :
  let env := calmEnv 100 in
  let r := approve Reserving env 7%nat staleWorld in
  Inventory.expiryDate staleBatch < clock env 0%nat
  /\ totalAvailable Reserving env (requestA pending 2) staleWorld = 3
  /\ code (fst r) = 200%nat
  /\ inventories (snd r)
     = [ Inventory.mk 1%nat A_pos 1 None 0 50 available 10 10;
         Inventory.mk 2%nat A_pos 2 None 0 50 reserved 100 101 ]
  /\ code (fst (approve Fulfilling env 7%nat staleWorld)) = 400%nat.
Proof. vm_compute. repeat split; reflexivity. Qed.

(* ----------------------------------------------------------------- *)
(** *** The status check *)

(** [server.js]: a request that is not pending is refused with 400 and
    nothing is written. *)
Lemma Fulfilling_rejects_non_pending env id w resp w' req :
  approve Fulfilling env id w = (resp, w') ->
  lookupRequest id (requests w) = Some req ->
  Request.status req <> pending ->
  code resp = 400%nat
  /\ error resp = Some ("Request status is "
                          ++ RequestStatus_toString (Request.status req)
                          ++ ". Only pending requests can be approved.")%string
  /\ Unchanged w w'.
Proof.
  intros Hrun Hreq Hst.
  apply approve_anatomy in Hrun.
  destruct Hrun as [Hnone _ _ | req0 _ Hreq0 _ Hc He Hu
                    | req0 Hreq0 Hg _ _ _ _ | req0 ok Hreq0 Hg _ _ _ ].
  - congruence.
  - assert (req0 = req) as -> by congruence. auto.
  - assert (req0 = req) as -> by congruence. simpl in Hg. contradiction.
  - assert (req0 = req) as -> by congruence. simpl in Hg. contradiction.
Qed.

Definition twiceWorld : World :=
  mkWorld [batchA; batchB] [requestA pending 2] [Recipient.mk 5%nat pending 50]
          0%nat 0%nat.

(** C6 on the second server.  Its approval does not look at the status of
    the request: approving the same request of 2 units a second time
    succeeds again and reserves 2 more units. *)
Theorem reserve_approves_non_pending :
  let env := calmEnv 100 in
  let w1 := snd (approve Reserving env 7%nat twiceWorld) in
  let r2 := approve Reserving env 7%nat w1 in
  option_map Request.status (lookupRequest 7%nat (requests w1)) = Some approved
  /\ quantityIn A_pos reserved (inventories w1) = 2
  /\ code (fst r2) = 200%nat
  /\ quantityIn A_pos reserved (inventories (snd r2)) = 4
  /\ inventories (snd r2) <> inventories w1.
Proof. vm_compute. repeat split; try reflexivity. discriminate. Qed.

(* ----------------------------------------------------------------- *)
(** *** The expiry sweep *)

Lemma sweepExpired_idempotent now l :
  sweepExpired now (sweepExpired now l) = sweepExpired now l.
Proof.
  unfold sweepExpired. rewrite map_map. apply map_ext. intros d.
  destruct ((Inventory.expiryDate d <? now)
            && InventoryStatus_eqb (Inventory.status d) available) eqn:E.
  - simpl. now rewrite andb_false_r.
  - now rewrite E.
Qed.

(** What the sweep does to one batch. *)
Definition Swept (now : Date) (d d' : Inventory.doc) : Prop :=
  (Inventory.status d = available /\ Inventory.expiryDate d < now ->
   d' = Inventory.with_status expired d)
  /\ (~ (Inventory.status d = available /\ Inventory.expiryDate d < now) ->
      d' = d).

Lemma sweepExpired_exact now l : Forall2 (Swept now) l (sweepExpired now l).
Proof.
  induction l as [|d l IH]; simpl; constructor; [|exact IH].
  unfold Swept.
  destruct (Z.ltb_spec (Inventory.expiryDate d) now);
    destruct (InventoryStatus_eqb_spec (Inventory.status d) available);
    simpl; split; intros; try reflexivity; try tauto; try lia.
Qed.

(** C8 (idempotent sweep).  When [checkExpiredBlood] runs twice in
    succession at the same time [now] and its writes go through, the
    inventory after the second run is the inventory after the first; a run
    moves exactly the batches that are available and expire before [now]
    to expired, and leaves every other batch, the requests and the
    recipients as they are. *)
Theorem checkExpiredBlood_idempotent env w now :
  clock env (ticks w) = now ->
  clock env (S (ticks w)) = now ->
  writeFault env (writes w) = None ->
  writeFault env (S (writes w)) = None ->
  let once := snd (checkExpiredBlood env w) in
  let twice := snd (checkExpiredBlood env once) in
  fst (checkExpiredBlood env w) = Ok tt
  /\ fst (checkExpiredBlood env once) = Ok tt
  /\ inventories twice = inventories once
  /\ Forall2 (Swept now) (inventories w) (inventories once)
  /\ requests twice = requests w /\ recipients twice = recipients w.
Proof.
  intros Hc1 Hc2 Hf1 Hf2.
  unfold checkExpiredBlood, Inventory_updateMany_expire.
  run_handler. rewrite Hf1; simpl. rewrite Hf2; simpl.
  rewrite Hc1, Hc2.
  repeat split; auto using sweepExpired_idempotent, sweepExpired_exact.
Qed.

Definition sweepWorld : World :=
  mkWorld [staleBatch; batchA; Inventory.with_status used staleBatch]
          [requestA pending 2] [] 0%nat 0%nat.

Lemma checkExpiredBlood_idempotent_witness :
  let env := mkEnv (fun _ => 100) (fun _ => None) sortStable in
  let once := snd (checkExpiredBlood env sweepWorld) in
  let twice := snd (checkExpiredBlood env once) in
  fst (checkExpiredBlood env sweepWorld) = Ok tt
  /\ fst (checkExpiredBlood env once) = Ok tt
  /\ inventories twice = inventories once
  /\ Forall2 (Swept 100) (inventories sweepWorld) (inventories once)
  /\ requests twice = requests sweepWorld
  /\ recipients twice = recipients sweepWorld.
Proof.
  intros env.
  apply (checkExpiredBlood_idempotent env sweepWorld 100); reflexivity.
Defined.

(* ================================================================= *)
(** ** Write failures *)





Section FaultFreeLoop.

Variables (v : Variant) (env : Env).




End FaultFreeLoop.

(* ----------------------------------------------------------------- *)
(** *** The first rejected write *)







Section FirstFault.

Variables (v : Variant) (env : Env).



End FirstFault.









(* ----------------------------------------------------------------- *)
(** *** No rollback *)



















(* ================================================================= *)
(** ** More on the approval *)

(** The units a document adds to the sum over the documents that satisfy
    [p]. *)
Definition weight (p : Inventory.doc -> bool) (d : Inventory.doc) : Z :=
  if p d then Inventory.units d else 0.

Definition inStatus (bt : BloodType) (s : InventoryStatus) (d : Inventory.doc) : bool :=
  ofType bt d && InventoryStatus_eqb (Inventory.status d) s.

(** What the loop takes from its items when [n] units are asked for. *)
Fixpoint taken (items : list Inventory.doc) (n : Z) : Z :=
  match items with
  | [] => 0
  | item :: rest =>
      if n <=? 0 then 0
      else if Inventory.units item <=? n
           then Inventory.units item + taken rest (n - Inventory.units item)
           else n
  end.

Lemma sumFilter_cons p d l :
  sumUnits (filter p (d :: l)) = weight p d + sumUnits (filter p l).
Proof. unfold weight. simpl. destruct (p d); simpl; lia. Qed.

Lemma sumFilter_app p l1 l2 :
  sumUnits (filter p (l1 ++ l2)) = sumUnits (filter p l1) + sumUnits (filter p l2).
Proof.
  induction l1 as [|x l1 IH]; [reflexivity|].
  rewrite <- app_comm_cons, !sumFilter_cons, IH. lia.
Qed.

Lemma sumFilter_replaceDoc p d d0 l :
  wfInventory l ->
  lookup (Inventory._id d) l = Some d0 ->
  sumUnits (filter p (replaceDoc d l))
  = sumUnits (filter p l) - weight p d0 + weight p d.
Proof.
  unfold wfInventory, lookup.
  induction l as [|x l IH]; intros Hnd H; [discriminate|].
  inversion_clear Hnd as [|? ? Hx Hl]. simpl in H.
  change (replaceDoc d (x :: l))
    with ((if Nat.eqb (Inventory._id x) (Inventory._id d) then d else x)
            :: replaceDoc d l).
  destruct (Nat.eqb_spec (Inventory._id x) (Inventory._id d)) as [E|E].
  - injection H as <-. rewrite E in Hx.
    rewrite (replaceDoc_absent _ _ Hx), !sumFilter_cons. lia.
  - rewrite !sumFilter_cons, (IH Hl H). lia.
Qed.

Lemma sumFilter_upsert_old p d d0 l :
  wfInventory l ->
  lookup (Inventory._id d) l = Some d0 ->
  sumUnits (filter p (upsert d l))
  = sumUnits (filter p l) - weight p d0 + weight p d.
Proof.
  intros Hwf H. rewrite upsert_old.
  - now apply sumFilter_replaceDoc.
  - destruct (lookup_Some _ _ _ H) as [Hin E]. rewrite <- E. now apply in_map.
Qed.

Lemma sumFilter_upsert_new p d l :
  ~ In (Inventory._id d) (ids l) ->
  sumUnits (filter p (upsert d l)) = sumUnits (filter p l) + weight p d.
Proof.
  intros H. rewrite (upsert_new _ _ H), sumFilter_app, sumFilter_cons.
  simpl. lia.
Qed.

Lemma sumUnits_nonneg l :
  Forall (fun d => 0 <= Inventory.units d) l -> 0 <= sumUnits l.
Proof. induction 1; simpl; lia. Qed.

Lemma sumUnits_perm l l' : Permutation l l' -> sumUnits l = sumUnits l'.
Proof. induction 1; simpl; lia. Qed.

Lemma taken_nothing items n : n <= 0 -> taken items n = 0.
Proof.
  intros H. destruct items as [|item rest]; [reflexivity|]. simpl.
  destruct (Z.leb_spec n 0); [reflexivity|lia].
Qed.

(** With batches that hold no negative quantity, the loop takes what is
    asked for, or everything when that is less. *)
Lemma taken_min items :
  Forall (fun d => 0 <= Inventory.units d) items ->
  forall n, 0 <= n -> taken items n = Z.min n (sumUnits items).
Proof.
  induction 1 as [|item rest Hu Hrest IH]; intros n Hn; simpl; [lia|].
  pose proof (sumUnits_nonneg _ Hrest) as Hs.
  destruct (Z.leb_spec n 0); [lia|].
  destruct (Z.leb_spec (Inventory.units item) n); [|lia].
  rewrite IH by lia. lia.
Qed.

(** A run over available batches of type [bt] moves what it takes from the
    available quantity of [bt] to its quantity in the target status. *)
Lemma run_takes target bt items n inv inv' :
  AllocRun target items n inv true inv' ->
  target <> available ->
  wfInventory inv -> Current items inv ->
  Forall (fun it => ofType bt it = true /\ Inventory.status it = available) items ->
  quantityIn bt target inv' = quantityIn bt target inv + taken items n
  /\ quantityIn bt available inv' = quantityIn bt available inv - taken items n.
Proof.
  intros Hrun Htarget. remember true as ok eqn:Hok.
  assert (Hta : InventoryStatus_eqb target available = false)
    by (destruct target; try reflexivity; congruence).
  assert (Hat : InventoryStatus_eqb available target = false)
    by (destruct target; try reflexivity; congruence).
  assert (Htt : InventoryStatus_eqb target target = true)
    by (destruct target; reflexivity).
  induction Hrun as [ | item items n inv Hn
                      | item items n inv d ok inv' Hn Hu Hw Hrun IH
                      | item items n inv dnew drest ok inv' Hn Hu Hnew Hrest Hrun IH
                      | | ];
    intros Hwf Hc Hall; try discriminate.
  - simpl. lia.
  - rewrite taken_nothing by assumption. lia.
  - inversion_clear Hall as [|? ? [Hbt Hst] Hall'].
    destruct (Current_head _ _ _ Hc) as [Hl _].
    rewrite <- (WholeOf_id _ _ _ Hw) in Hl.
    destruct (IH Hok (wfInventory_upsert _ _ Hwf)) as [IH1 IH2]; [|assumption|].
    { apply Current_save_item with item; [assumption|].
      now apply WholeOf_id with target. }
    rewrite IH1, IH2. unfold quantityIn.
    rewrite !(sumFilter_upsert_old _ _ _ _ Hwf Hl).
    unfold weight, ofType in *.
    rewrite (WholeOf_bloodType _ _ _ Hw), (WholeOf_units _ _ _ Hw),
      (WholeOf_status _ _ _ Hw), Hbt, Hst, Hta, Hat, Htt.
    rewrite ?Hok. simpl. destruct (Z.leb_spec n 0); [lia|].
    destruct (Z.leb_spec (Inventory.units item) n); lia.
  - inversion_clear Hall as [|? ? [Hbt Hst] Hall'].
    destruct (Current_head _ _ _ Hc) as [Hl _].
    assert (Hfresh : ~ In (Inventory._id dnew) (ids inv)).
    { rewrite (new_id _ _ _ _ _ Hnew). apply freshId_fresh. }
    assert (Hl' : lookup (Inventory._id drest) (upsert dnew inv) = Some item).
    { rewrite lookup_upsert, (RestOf_id _ _ _ Hrest).
      destruct (Nat.eqb_spec (Inventory._id dnew) (Inventory._id item)) as [E|E];
        [|assumption].
      exfalso. apply Hfresh. rewrite E.
      apply (Current_In_ids _ _ _ Hc). now left. }
    destruct (run_nothing _ _ _ _ _ _ Hrun) as [_ ->]; [lia|].
    unfold quantityIn.
    rewrite !(sumFilter_upsert_old _ _ _ _ (wfInventory_upsert _ _ Hwf) Hl').
    rewrite !(sumFilter_upsert_new _ _ _ Hfresh).
    unfold weight, ofType in *.
    rewrite (RestOf_bloodType _ _ _ Hrest), (RestOf_units _ _ _ Hrest),
      (RestOf_status _ _ _ Hrest), (new_bloodType _ _ _ _ _ Hnew),
      (new_units _ _ _ _ _ Hnew), (new_status _ _ _ _ _ Hnew),
      Hbt, Hst, Hta, Hat, Htt.
    rewrite ?Hok. simpl. destruct (Z.leb_spec n 0); [lia|].
    destruct (Z.leb_spec (Inventory.units item) n); lia.
Qed.

Lemma Forall_upsert (P : Inventory.doc -> Prop) d l :
  Forall P l -> P d -> Forall P (upsert d l).
Proof.
  intros Hl Hd. unfold upsert. destruct (existsb _ l).
  - rewrite Forall_forall in *. intros x Hx.
    apply in_map_iff in Hx as [y [E Hy]].
    destruct (Nat.eqb (Inventory._id y) (Inventory._id d)); subst x; auto.
  - apply Forall_app. split; [assumption|now constructor].
Qed.

(** Whether it runs to its end or a save throws, the loop leaves no batch
    with less than one unit. *)
Lemma run_units target items n inv ok inv' :
  AllocRun target items n inv ok inv' ->
  Current items inv ->
  Forall (fun d => 1 <= Inventory.units d) inv ->
  Forall (fun d => 1 <= Inventory.units d) inv'.
Proof.
  induction 1 as [ | | item items n inv d ok inv' Hn Hu Hw Hrun IH
                   | item items n inv dnew drest ok inv' Hn Hu Hnew Hrest Hrun IH
                   | | item items n inv dnew Hn Hu Hnew ];
    intros Hc Hall; try assumption.
  - apply IH.
    + apply Current_save_item with item; [assumption|].
      now apply WholeOf_id with target.
    + apply Forall_upsert; [assumption|].
      rewrite (WholeOf_units _ _ _ Hw).
      destruct (Current_head _ _ _ Hc) as [Hl _].
      destruct (lookup_Some _ _ _ Hl) as [Hin _].
      rewrite Forall_forall in Hall. now apply Hall.
  - apply IH.
    + now apply Current_after_split with item n target.
    + apply Forall_upsert; [apply Forall_upsert; [assumption|]|].
      * rewrite (new_units _ _ _ _ _ Hnew). lia.
      * rewrite (RestOf_units _ _ _ Hrest). lia.
  - apply Forall_upsert; [assumption|].
    rewrite (new_units _ _ _ _ _ Hnew). lia.
Qed.

(** A moment passes between the check and the selection of [server.js]:
    a batch of 3 units that expires at 101 is counted at 100 and no longer
    selected at 101. *)
Definition lapseWorld : World :=
  mkWorld [Inventory.mk 1%nat A_pos 3 None 0 101 available 10 10]
          [requestA pending 3] [] 0%nat 0%nat.

(** The message of the CastError for the parameter [xyz] in a query by
    [_id] on the model [model], as Mongoose 6 and later word it. *)
Definition castErrorMessage_xyz (model : string) : string :=
  let q := String (Ascii.ascii_of_nat 34) EmptyString in
  ("Cast to ObjectId failed for value " ++ q ++ "xyz" ++ q
     ++ " (type string) at path " ++ q ++ "_id" ++ q
     ++ " for model " ++ q ++ model ++ q)%string.

(** A parameter that names no stored request: when it is an ObjectId, both
    servers answer 404; when it is no ObjectId, [findById] throws and both
    servers answer 500 with the message of the cast error.  In both cases
    the database is left as it is and no write is sent. *)
Theorem approve_unknown_request v env p w resp w' :
  approveRoute v env p w = (resp, w') ->
  match p with
  | IdOf id =>
      lookupRequest id (requests w) = None ->
      code resp = 404%nat /\ success resp = false /\ w' = w
  | CastError errorMessage =>
      code resp = 500%nat /\ success resp = false
      /\ details resp = Some errorMessage /\ w' = w
  end.
Proof.
  intros Hrun.
  destruct v; simpl in Hrun;
    unfold ServerJs.approve, Reserve.approve in Hrun;
    unfold tryCatch, bind, Request_findById, castObjectId, ret in Hrun;
    destruct p as [id|e]; simpl in Hrun.
  1,3: intros Hnone; rewrite Hnone in Hrun; injection Hrun as <- <-; auto.
  all: injection Hrun as <- <-; auto.
Qed.

Lemma approve_unknown_request_witness :
  let r := approveRoute Reserving (calmEnv 100) (IdOf 99%nat) scenarioWorld in
  let r' := approveRoute Fulfilling (calmEnv 100)
              (CastError (castErrorMessage_xyz "Request")) scenarioWorld in
  (code (fst r) = 404%nat /\ success (fst r) = false /\ snd r = scenarioWorld)
  /\ (code (fst r') = 500%nat /\ success (fst r') = false
      /\ details (fst r') = Some (castErrorMessage_xyz "Request")
      /\ snd r' = scenarioWorld).
Proof.
  intros r r'. split.
  - apply (approve_unknown_request Reserving (calmEnv 100) (IdOf 99%nat)
             scenarioWorld (fst r) (snd r)).
    + apply surjective_pairing.
    + reflexivity.
  - apply (approve_unknown_request Fulfilling (calmEnv 100)
             (CastError (castErrorMessage_xyz "Request")) scenarioWorld
             (fst r') (snd r')).
    apply surjective_pairing.
Defined.

(** A successful approval moves [k] units of the requested blood type from
    the available quantity to the consumed status, where [k] is the
    requested quantity, or the whole quantity of the matched batches when
    that is less.  On the second server, and on [server.js] when the clock
    shows the same time for the check and for the selection, [k] is the
    requested quantity. *)
Theorem approve_moves_quantity v env id w resp w' req :
  SortsByExpiry (sortExpiry env) ->
  wfInventory (inventories w) ->
  Forall (fun d => 1 <= Inventory.units d) (inventories w) ->
  approve v env id w = (resp, w') ->
  code resp = 200%nat ->
  lookupRequest id (requests w) = Some req ->
  0 <= Request.units req ->
  let bt := Request.bloodType req in
  let k := Z.min (Request.units req) (sumUnits (matching v env req w)) in
  quantityIn bt (consumedStatus v) (inventories w')
  = quantityIn bt (consumedStatus v) (inventories w) + k
  /\ quantityIn bt available (inventories w')
     = quantityIn bt available (inventories w) - k
  /\ (v = Reserving \/ clock env (S (ticks w)) = clock env (ticks w) ->
      k = Request.units req).
Proof.
  intros Hsort Hwf Hunits Hrun Hcode Hreq Hpos bt k.
  apply approve_anatomy in Hrun.
  destruct Hrun as [Hnone Hc _ | req0 _ _ _ Hc _ _ | req0 _ _ _ Hc _ _
                    | req0 ok Hreq0 _ Hge Hrun Hend ];
    try (rewrite Hc in Hcode; discriminate).
  assert (req0 = req) as -> by congruence.
  destruct Hend as [req' Hok _ _ _ _ | Hc _ _ | req' _ _ Hc _ _ _];
    try (rewrite Hc in Hcode; discriminate).
  subst ok.
  assert (Htaken : taken (selected v env req w) (Request.units req) = k).
  { subst k. rewrite taken_min; [|apply Forall_forall; intros d Hd|assumption].
    - f_equal. apply sumUnits_perm. apply Hsort.
    - apply (selected_In v env req w Hsort) in Hd.
      apply matching_stored in Hd. rewrite Forall_forall in Hunits.
      specialize (Hunits d Hd). simpl in Hunits. lia. }
  destruct (run_takes (consumedStatus v) bt _ _ _ _ Hrun) as [H1 H2].
  - destruct v; discriminate.
  - assumption.
  - now apply selected_current.
  - apply Forall_forall. intros d Hd.
    apply (selected_In v env req w Hsort) in Hd. split.
    + now apply (matching_ofType v env req w).
    + now apply (matching_available v env req w).
  - rewrite Htaken in H1, H2. repeat split; try assumption.
    intros Hsame. subst k.
    assert (Request.units req <= sumUnits (matching v env req w)); [|lia].
    destruct Hsame as [->|Hclock]; [exact Hge|].
    destruct v; simpl in *; [rewrite Hclock|]; exact Hge.
Qed.

Lemma approve_moves_quantity_witness :
  let env := calmEnv 100 in
  let w := lapseWorld in
  let r := approve Fulfilling env 7%nat w in
  let k := Z.min 3 (sumUnits (matching Fulfilling env (requestA pending 3) w)) in
  quantityIn A_pos used (inventories (snd r))
  = quantityIn A_pos used (inventories w) + k
  /\ quantityIn A_pos available (inventories (snd r))
     = quantityIn A_pos available (inventories w) - k
  /\ (Fulfilling = Reserving \/ clock env (S (ticks w)) = clock env (ticks w) ->
      k = 3).
Proof.
  intros env w r.
  apply (approve_moves_quantity Fulfilling env 7%nat w (fst r) (snd r)
           (requestA pending 3)).
  - apply sortStable_contract.
  - unfold wfInventory. simpl. repeat constructor. simpl. tauto.
  - simpl. repeat constructor. simpl. lia.
  - apply surjective_pairing.
  - reflexivity.
  - reflexivity.
  - simpl. lia.
Defined.

(** Whatever its outcome, an approval keeps [_id] a key of the inventory
    and leaves no batch with less than one unit. *)
Theorem approve_keeps_inventory_valid v env id w resp w' :
  SortsByExpiry (sortExpiry env) ->
  wfInventory (inventories w) ->
  Forall (fun d => 1 <= Inventory.units d) (inventories w) ->
  approve v env id w = (resp, w') ->
  wfInventory (inventories w')
  /\ Forall (fun d => 1 <= Inventory.units d) (inventories w').
Proof.
  intros Hsort Hwf Hunits Hrun.
  apply approve_anatomy in Hrun.
  destruct Hrun as [_ _ [Hi _] | req _ _ _ _ _ [Hi _] | req _ _ _ _ _ [Hi _]
                    | req ok _ _ _ Hrun _ ];
    try (rewrite Hi; now split).
  split.
  - exact (run_wf _ _ _ _ _ _ Hrun Hwf).
  - apply (run_units _ _ _ _ _ _ Hrun); [|assumption].
    now apply selected_current.
Qed.

Lemma approve_keeps_inventory_valid_witness :
  let r := approve Fulfilling (faultyEnv 100 2) 7%nat scenarioWorld in
  wfInventory (inventories (snd r))
  /\ Forall (fun d => 1 <= Inventory.units d) (inventories (snd r)).
Proof.
  intros r.
  apply (approve_keeps_inventory_valid Fulfilling (faultyEnv 100 2) 7%nat
           scenarioWorld (fst r)).
  - apply sortStable_contract.
  - apply scenarioWorld_wf.
  - simpl. repeat constructor; simpl; lia.
  - apply surjective_pairing.
Defined.

Lemma lookupRequest_upsertRequest_same r l :
  lookupRequest (Request._id r) (upsertRequest r l) = Some r.
Proof.
  unfold upsertRequest, lookupRequest.
  destruct (existsb _ l) eqn:E.
  - induction l as [|x l IH]; [discriminate|]. simpl in E |- *.
    destruct (Nat.eqb_spec (Request._id x) (Request._id r)) as [F|F]; simpl.
    + now rewrite Nat.eqb_refl.
    + destruct (Nat.eqb_spec (Request._id x) (Request._id r)); [contradiction|].
      simpl in E. auto.
  - induction l as [|x l IH]; simpl in E |- *.
    + now rewrite Nat.eqb_refl.
    + apply orb_false_elim in E as [E1 E2]. rewrite E1. auto.
Qed.

(** [server.js]: once an approval has succeeded, approving the same
    request again is refused with 400 and writes nothing, whatever the
    clock, the write faults and the database order then are. *)
Theorem Fulfilling_second_approval_refused env env' id w resp w' resp2 w2 :
  approve Fulfilling env id w = (resp, w') ->
  code resp = 200%nat ->
  approve Fulfilling env' id w' = (resp2, w2) ->
  code resp2 = 400%nat /\ Unchanged w' w2.
Proof.
  intros Hrun Hcode Hrun2.
  apply approve_anatomy in Hrun.
  destruct Hrun as [Hnone Hc _ | req0 _ _ _ Hc _ _ | req0 _ _ _ Hc _ _
                    | req ok Hreq _ _ _ Hend ];
    try (rewrite Hc in Hcode; discriminate).
  destruct Hend as [req' _ _ Htr Hrq _ | Hc _ _ | req' Hv _ _ _ _ _];
    try (rewrite Hc in Hcode; discriminate); try discriminate.
  assert (Hstored : lookupRequest id (requests w') = Some req').
  { rewrite Hrq, <- (lookupRequest_id _ _ _ Hreq), <- (tr_id _ _ _ Htr).
    apply lookupRequest_upsertRequest_same. }
  destruct (Fulfilling_rejects_non_pending env' id w' resp2 w2 req' Hrun2 Hstored)
    as [H1 [_ H2]].
  - rewrite (tr_status _ _ _ Htr). discriminate.
  - now split.
Qed.

Lemma Fulfilling_second_approval_refused_witness :
  let r := approve Fulfilling (calmEnv 100) 7%nat scenarioWorld in
  let r2 := approve Fulfilling (calmEnv 500) 7%nat (snd r) in
  code (fst r2) = 400%nat /\ Unchanged (snd r) (snd r2).
Proof.
  intros r r2.
  apply (Fulfilling_second_approval_refused (calmEnv 100) (calmEnv 500) 7%nat
           scenarioWorld (fst r) (snd r) (fst r2) (snd r2)).
  - apply surjective_pairing.
  - reflexivity.
  - apply surjective_pairing.
Defined.

(* ----------------------------------------------------------------- *)
(** *** The sweep before an approval *)

Lemma ids_sweepExpired now l : ids (sweepExpired now l) = ids l.
Proof.
  unfold ids, sweepExpired. rewrite map_map. apply map_ext. intros d.
  now destruct (_ && _).
Qed.

Lemma sweepExpired_available now l b :
  In b (sweepExpired now l) ->
  Inventory.status b = available ->
  now <= Inventory.expiryDate b.
Proof.
  unfold sweepExpired. intros Hin Hst.
  apply in_map_iff in Hin as [d [E _]].
  destruct (Z.ltb_spec (Inventory.expiryDate d) now) as [Hlt|Hge];
    destruct (InventoryStatus_eqb_spec (Inventory.status d) available) as [Ha|Ha];
    simpl in E; subst b; simpl in *; try assumption; try discriminate;
    contradiction.
Qed.

Lemma checkExpiredBlood_ok env w w1 :
  checkExpiredBlood env w = (Ok tt, w1) ->
  inventories w1 = sweepExpired (clock env (ticks w)) (inventories w)
  /\ requests w1 = requests w /\ recipients w1 = recipients w.
Proof.
  unfold checkExpiredBlood, Inventory_updateMany_expire. run_handler.
  destruct (writeFault env (writes w)); [discriminate|].
  intros H. injection H as <-. auto.
Qed.

(** When [checkExpiredBlood] has run, as the availability route of the
    second server does, an approval by the second server that follows it
    changes no batch that had expired before the sweep. *)
Theorem sweep_then_reserve_skips_expired env env2 id w w1 resp w2 req b :
  SortsByExpiry (sortExpiry env2) ->
  wfInventory (inventories w) ->
  checkExpiredBlood env w = (Ok tt, w1) ->
  approve Reserving env2 id w1 = (resp, w2) ->
  lookupRequest id (requests w1) = Some req ->
  In b (inventories w1) ->
  lookup (Inventory._id b) (inventories w2) <> Some b ->
  clock env (ticks w) <= Inventory.expiryDate b.
Proof.
  intros Hsort Hwf Hsweep Hrun Hreq Hb Htouched.
  destruct (checkExpiredBlood_ok _ _ _ Hsweep) as [Hinv _].
  assert (Hwf1 : wfInventory (inventories w1)).
  { unfold wfInventory. now rewrite Hinv, ids_sweepExpired. }
  pose proof (approve_touches_only_matching Reserving env2 id w1 resp w2 req b
                Hsort Hwf1 Hrun Hreq Hb Htouched) as Hm.
  apply (sweepExpired_available _ (inventories w)).
  - now rewrite <- Hinv.
  - now apply (matching_available Reserving env2 req w1).
Qed.

Lemma sweep_then_reserve_skips_expired_witness :
  let env := calmEnv 100 in
  let w1 := snd (checkExpiredBlood env scenarioWorld) in
  clock env (ticks scenarioWorld) <= Inventory.expiryDate batchA.
Proof.
  intros env w1.
  apply (sweep_then_reserve_skips_expired env env 7%nat scenarioWorld w1
           (fst (approve Reserving env 7%nat w1))
           (snd (approve Reserving env 7%nat w1)) (requestA pending 5) batchA).
  - apply sortStable_contract.
  - apply scenarioWorld_wf.
  - reflexivity.
  - apply surjective_pairing.
  - reflexivity.
  - simpl. left. reflexivity.
  - vm_compute. discriminate.
Defined.

(* ================================================================= *)
(** ** The second server: blood compatibility *)

(** The table of [checkBloodCompatibility]: for a recipient, the donor
    types it may receive. *)
Definition compatibility (recipientBloodType : BloodType) : list string :=
  match recipientBloodType with
  | A_pos => ["A+"; "A-"; "O+"; "O-"]
  | A_neg => ["A-"; "O-"]
  | B_pos => ["B+"; "B-"; "O+"; "O-"]
  | B_neg => ["B-"; "O-"]
  | AB_pos => ["A+"; "A-"; "B+"; "B-"; "AB+"; "AB-"; "O+"; "O-"]
  | AB_neg => ["A-"; "B-"; "AB-"; "O-"]
  | O_pos => ["O+"; "O-"]
  | O_neg => ["O-"]
  end.

(** [compatibility[recipientBloodType]?.includes(donorBloodType) || false],
    for a recipient type that is one of the eight keys of the table; the
    donor type is any string. *)
Definition checkBloodCompatibility (recipientBloodType : BloodType)
           (donorBloodType : string) : bool :=
  existsb (String.eqb donorBloodType) (compatibility recipientBloodType).

(** The antigens of a blood type. *)
Definition hasA (t : BloodType) : bool :=
  match t with A_pos | A_neg | AB_pos | AB_neg => true | _ => false end.

Definition hasB (t : BloodType) : bool :=
  match t with B_pos | B_neg | AB_pos | AB_neg => true | _ => false end.

Definition rhPositive (t : BloodType) : bool :=
  match t with A_pos | B_pos | AB_pos | O_pos => true | _ => false end.

(** [donor] may give to [recipient], by the table. *)
Definition givesTo (donor recipient : BloodType) : Prop :=
  checkBloodCompatibility recipient (BloodType_toString donor) = true.

(** The table is the rule of red-cell transfusion: a donor type is accepted
    exactly when it brings no antigen (A, B, Rh) that the recipient lacks. *)
Theorem checkBloodCompatibility_antigen_rule recipient donor :
  checkBloodCompatibility recipient (BloodType_toString donor)
  = implb (hasA donor) (hasA recipient)
    && implb (hasB donor) (hasB recipient)
    && implb (rhPositive donor) (rhPositive recipient).
Proof. destruct recipient, donor; reflexivity. Qed.

(** Compatibility is a partial order on the eight types, with O- below
    every type (universal donor) and AB+ above every type (universal
    recipient). *)
Theorem checkBloodCompatibility_order :
  (forall t, givesTo t t)
  /\ (forall d r, givesTo d r -> givesTo r d -> d = r)
  /\ (forall a b c, givesTo a b -> givesTo b c -> givesTo a c)
  /\ (forall r, givesTo O_neg r)
  /\ (forall d, givesTo d AB_pos).
Proof.
  unfold givesTo. repeat split.
  - intros t. now destruct t.
  - intros d r. destruct d, r; simpl; intros H1 H2;
      try reflexivity; discriminate.
  - intros a b c. destruct a, b; simpl; intros H1; try discriminate;
      destruct c; simpl; intros H2; try discriminate; reflexivity.
  - intros r. now destruct r.
  - intros d. now destruct d.
Qed.

(** A donor string that is not the name of a blood type, in its exact
    spelling, is compatible with no recipient. *)
Theorem checkBloodCompatibility_unknown_donor recipient donorBloodType :
  (forall t, BloodType_toString t <> donorBloodType) ->
  checkBloodCompatibility recipient donorBloodType = false.
Proof.
  intros H. unfold checkBloodCompatibility.
  assert (Hno : forall t,
             String.eqb donorBloodType (BloodType_toString t) = false).
  { intros t. apply String.eqb_neq. intros E. now apply (H t). }
  pose proof (Hno A_pos). pose proof (Hno A_neg). pose proof (Hno B_pos).
  pose proof (Hno B_neg). pose proof (Hno AB_pos). pose proof (Hno AB_neg).
  pose proof (Hno O_pos). pose proof (Hno O_neg). simpl in *.
  destruct recipient; simpl;
    repeat match goal with
           | Hq : String.eqb donorBloodType ?s = false |- _ =>
               rewrite Hq; clear Hq
           end; reflexivity.
Qed.

Lemma checkBloodCompatibility_unknown_donor_witness :
  checkBloodCompatibility AB_pos "o-" = false.
Proof.
  apply (checkBloodCompatibility_unknown_donor AB_pos "o-").
  intros t. destruct t; discriminate.
Defined.

(* ================================================================= *)
(** ** [public/app.js] *)

(** [shortenId(id)], for an id that is a string:
    [if (!id || id.length < 8) return id;
     return `${id.substring(0, 4)}...${id.substring(id.length - 4)}`;] *)
Definition shortenId (id : string) : string :=
  if (String.length id <? 8)%nat then id
  else (substring 0 4 id ++ "..."
          ++ substring (String.length id - 4) 4 id)%string.

Lemma string_length_append (a b : string) :
  String.length (a ++ b)%string = (String.length a + String.length b)%nat.
Proof. induction a as [|c a IH]; simpl; [reflexivity|now rewrite IH]. Qed.

Lemma string_length_substring s :
  forall n m, (n + m <= String.length s)%nat ->
              String.length (substring n m s) = m.
Proof.
  induction s as [|c s IH]; intros n m H; simpl in H.
  - assert (n = 0%nat) as -> by lia. assert (m = 0%nat) as -> by lia.
    reflexivity.
  - destruct n as [|n]; simpl.
    + destruct m as [|m]; [reflexivity|]. simpl. rewrite IH; [reflexivity|lia].
    + apply IH. lia.
Qed.

Lemma substring_prefix (a t : string) :
  substring 0 (String.length a) (a ++ t)%string = a.
Proof.
  induction a as [|c a IH]; simpl.
  - now destruct t.
  - now rewrite IH.
Qed.

Lemma substring_skip (a t : string) m :
  substring (String.length a) m (a ++ t)%string = substring 0 m t.
Proof. induction a as [|c a IH]; simpl; [reflexivity|exact IH]. Qed.

Lemma substring_whole (b : string) : substring 0 (String.length b) b = b.
Proof. induction b as [|c b IH]; simpl; [reflexivity|now rewrite IH]. Qed.

(** Shortening is idempotent: a shortened id is shown as it is.  An id of
    fewer than 8 characters is kept, a longer one becomes 11 characters. *)
Theorem shortenId_idempotent id :
  shortenId (shortenId id) = shortenId id
  /\ String.length (shortenId id)
     = (if (String.length id <? 8)%nat then String.length id else 11%nat).
Proof.
  unfold shortenId.
  destruct (Nat.ltb_spec (String.length id) 8) as [Hlt|Hge].
  - split; [|reflexivity].
    destruct (Nat.ltb_spec (String.length id) 8); [reflexivity|lia].
  - set (a := substring 0 4 id).
    set (b := substring (String.length id - 4) 4 id).
    assert (Ha : String.length a = 4%nat)
      by (apply string_length_substring; lia).
    assert (Hb : String.length b = 4%nat)
      by (apply string_length_substring; lia).
    assert (Hlen : String.length (a ++ "..." ++ b)%string = 11%nat).
    { rewrite !string_length_append, Ha, Hb. reflexivity. }
    split; [|exact Hlen].
    rewrite Hlen. change (11 <? 8)%nat with false. cbv iota.
    change (11 - 4)%nat with 7%nat.
    assert (Hpre : substring 0 4 (a ++ "..." ++ b)%string = a).
    { rewrite <- Ha at 1. apply substring_prefix. }
    assert (Hsuf : substring 7 4 (a ++ "..." ++ b)%string = b).
    { rewrite <- string_app_assoc.
      assert (H7 : String.length (a ++ "...")%string = 7%nat)
        by (rewrite string_length_append, Ha; reflexivity).
      rewrite <- H7, substring_skip, <- Hb. apply substring_whole. }
    now rewrite Hpre, Hsuf.
Qed.

(** The overview table of [loadDashboard]: the units per blood type, added
    up over the inventory the server sent. *)
Definition bloodTypes : list BloodType :=
  [A_pos; A_neg; B_pos; B_neg; AB_pos; AB_neg; O_pos; O_neg].

Definition bloodTypeUnits (inventory : list Inventory.doc) : BloodType -> Z :=
  fold_left
    (fun (units : BloodType -> Z) item =>
       if InventoryStatus_eqb (Inventory.status item) available
          && existsb (BloodType_eqb (Inventory.bloodType item)) bloodTypes
       then fun type =>
              if BloodType_eqb type (Inventory.bloodType item)
              then units type + Inventory.units item
              else units type
       else units)
    inventory (fun _ => 0).

(** [units <= 2]: Critical; [units <= 5]: Low; otherwise Available. *)
Definition overviewStatus (units : Z) : string :=
  if units <=? 2 then "Critical"
  else if units <=? 5 then "Low"
  else "Available".

Lemma bloodTypes_all t : existsb (BloodType_eqb t) bloodTypes = true.
Proof. now destruct t. Qed.

Lemma BloodType_eqb_sym a b : BloodType_eqb a b = BloodType_eqb b a.
Proof. now destruct a, b. Qed.

Lemma available_by_type l :
  fold_right (fun t acc => quantityIn t available l + acc) 0 bloodTypes
  = sumUnits (filter (fun d => InventoryStatus_eqb (Inventory.status d) available) l).
Proof.
  unfold quantityIn, ofType. simpl.
  induction l as [|d l IH]; [reflexivity|]. simpl.
  destruct (InventoryStatus_eqb (Inventory.status d) available); simpl;
    rewrite ?andb_false_r, ?andb_true_r;
    destruct (Inventory.bloodType d); simpl; lia.
Qed.

(** The number the dashboard shows for a blood type is the available
    quantity of that type in the inventory it received, and the eight
    numbers add up to the sum of the units of all available batches, the
    [totalUnits] of the statistics. *)
Theorem bloodTypeUnits_available inventory :
  (forall type, bloodTypeUnits inventory type = quantityIn type available inventory)
  /\ fold_right (fun type acc => bloodTypeUnits inventory type + acc) 0 bloodTypes
     = sumUnits (filter (fun d => InventoryStatus_eqb (Inventory.status d) available)
                   inventory).
Proof.
  assert (Hfold : forall l (units : BloodType -> Z) type,
             fold_left
               (fun (units : BloodType -> Z) item =>
                  if InventoryStatus_eqb (Inventory.status item) available
                     && existsb (BloodType_eqb (Inventory.bloodType item)) bloodTypes
                  then fun type =>
                         if BloodType_eqb type (Inventory.bloodType item)
                         then units type + Inventory.units item
                         else units type
                  else units) l units type
             = units type + quantityIn type available l).
  { induction l as [|d l IH]; intros units type.
    - unfold quantityIn. simpl. lia.
    - cbn [fold_left]. rewrite IH. unfold quantityIn.
      rewrite sumFilter_cons. unfold weight, ofType.
      rewrite bloodTypes_all, andb_true_r.
      destruct (InventoryStatus_eqb (Inventory.status d) available);
        cbv beta iota; rewrite ?(BloodType_eqb_sym type);
        destruct (BloodType_eqb (Inventory.bloodType d) type); simpl; lia. }
  assert (Hall : forall type,
             bloodTypeUnits inventory type = quantityIn type available inventory).
  { intros type. unfold bloodTypeUnits. rewrite Hfold. lia. }
  split; [exact Hall|].
  rewrite <- available_by_type. simpl. now rewrite !Hall.
Qed.

(* ================================================================= *)
(** ** More routes *)

Section MorePrimitives.

Variable env : Env.

(** [Inventory.findByIdAndDelete(req.params.id)]: the deleted document, or
    [null]; a parameter that is no ObjectId makes the call throw before any
    command is sent. *)
Definition Inventory_findByIdAndDelete (p : IdParam) : M (option Inventory.doc) :=
  id <- castObjectId p ;;
  fun w =>
    match writeFault env (writes w) with
    | Some e =>
        (Thrown e, mkWorld (inventories w) (requests w) (recipients w)
                           (ticks w) (S (writes w)))
    | None =>
        (Ok (lookup id (inventories w)),
         mkWorld (filter (fun d => negb (Nat.eqb (Inventory._id d) id))
                         (inventories w))
                 (requests w) (recipients w) (ticks w) (S (writes w)))
    end.

(** [Request.findByIdAndDelete(id)], for a parameter that is an ObjectId *)
Definition Request_findByIdAndDelete (id : ObjectId) : M (option Request.doc) :=
  fun w =>
    match writeFault env (writes w) with
    | Some e =>
        (Thrown e, mkWorld (inventories w) (requests w) (recipients w)
                           (ticks w) (S (writes w)))
    | None =>
        (Ok (lookupRequest id (requests w)),
         mkWorld (inventories w)
                 (filter (fun r => negb (Nat.eqb (Request._id r) id)) (requests w))
                 (recipients w) (ticks w) (S (writes w)))
    end.

(** [Request.findByIdAndUpdate(id, { status, updatedAt }, { new: true })],
    for a parameter that is an ObjectId and once the update has passed the
    validators: the updated document, or [null]. *)
Definition Request_findByIdAndUpdate (id : ObjectId) (s : RequestStatus)
           (t : Date) : M (option Request.doc) :=
  fun w =>
    let w1 := mkWorld (inventories w) (requests w) (recipients w)
                      (ticks w) (S (writes w)) in
    match writeFault env (writes w) with
    | Some e => (Thrown e, w1)
    | None =>
        match lookupRequest id (requests w) with
        | None => (Ok None, w1)
        | Some r =>
            let r' := Request.with_updatedAt t (Request.with_status s r) in
            (Ok (Some r'),
             mkWorld (inventories w) (upsertRequest r' (requests w))
                     (recipients w) (ticks w) (S (writes w)))
        end
    end.

End MorePrimitives.

(** The status enum of [requestSchema] in [server.js]. *)
Definition ServerJs_status_ofString (s : string) : option RequestStatus :=
  if String.eqb s "pending" then Some pending
  else if String.eqb s "fulfilled" then Some fulfilled
  else if String.eqb s "rejected" then Some rejected
  else if String.eqb s "cancelled" then Some cancelled
  else None.

Module ServerJsRoutes.
Section Routes.

Variable env : Env.

(** DELETE /api/inventory/:id *)
Definition deleteInventory (id : IdParam) : World -> Response * World :=
  tryCatch
    (deletedUnit <- Inventory_findByIdAndDelete env id ;;
     match deletedUnit with
     | None =>
         ret (mkResponse 404 false (Some "Blood unit not found.") None None None)
     | Some _ =>
         ret (mkResponse 200 true None (Some "Blood unit deleted successfully.")
                None None)
     end)
    (fun errorMessage =>
       mkResponse 500 false (Some "Failed to delete blood unit") None
         (Some errorMessage) None).

(** PUT /api/requests/:id, for a parameter that is an ObjectId and a body
    that has a [status] string.  With
    [runValidators] a status outside the enum makes the call throw before
    any command is sent. *)
Definition updateRequest (id : ObjectId) (status : string)
  : World -> Response * World :=
  tryCatch
    (now <- newDate env ;;
     request <-
       match ServerJs_status_ofString status with
       | None =>
           fun w =>
             (Thrown ("Validation failed: status: `" ++ status
                        ++ "` is not a valid enum value for path `status`.")%string,
              w)
       | Some s => Request_findByIdAndUpdate env id s now
       end ;;
     match request with
     | None =>
         ret (mkResponse 404 false (Some "Request not found.") None None None)
     | Some request =>
         ret (mkResponse 200 true None (Some "Request updated successfully.")
                None (Some request))
     end)
    (fun errorMessage =>
       mkResponse 500 false (Some "Failed to update request") None
         (Some errorMessage) None).

(** DELETE /api/requests/:id, for a parameter that is an ObjectId *)
Definition deleteRequest (id : ObjectId) : World -> Response * World :=
  tryCatch
    (deletedRequest <- Request_findByIdAndDelete env id ;;
     match deletedRequest with
     | None =>
         ret (mkResponse 404 false (Some "Request not found.") None None None)
     | Some _ =>
         ret (mkResponse 200 true None (Some "Request deleted successfully.")
                None None)
     end)
    (fun errorMessage =>
       mkResponse 500 false (Some "Failed to delete request") None
         (Some errorMessage) None).

End Routes.
End ServerJsRoutes.

(** The answer of the availability route of the second server. *)
Inductive AvailabilityResponse :=
| AvailabilityOk (bloodType : string) (availableUnits : Z) (status : string)
| AvailabilityFailed (error details : string).

Module ReserveRoutes.
Section Routes.

Variable env : Env.

(** [{ bloodType: bloodType, status: 'available' }], where [bloodType] is
    the path parameter. *)
Definition availableOfName (bloodType : string) (d : Inventory.doc) : bool :=
  String.eqb (BloodType_toString (Inventory.bloodType d)) bloodType
  && InventoryStatus_eqb (Inventory.status d) available.

(** GET /api/inventory/availability/:bloodType *)
Definition availability (bloodType : string)
  : World -> AvailabilityResponse * World :=
  tryCatch
    (checkExpiredBlood env ;;;
     availability <- Inventory_aggregate_totalUnits (availableOfName bloodType) ;;
     let totalUnits :=
       match availability with
       | totalUnits :: _ => totalUnits
       | [] => 0
       end in
     ret (AvailabilityOk bloodType totalUnits
            (if 10 <? totalUnits then "available"
             else if 5 <? totalUnits then "critical"
             else "out-of-stock")))
    (fun errorMessage =>
       AvailabilityFailed "Failed to check blood availability" errorMessage).

End Routes.
End ReserveRoutes.

(* ----------------------------------------------------------------- *)
(** *** Deleting *)

Definition removeId (id : ObjectId) (l : list Inventory.doc) : list Inventory.doc :=
  filter (fun d => negb (Nat.eqb (Inventory._id d) id)) l.

Lemma removeId_absent id l : ~ In id (ids l) -> removeId id l = l.
Proof.
  unfold removeId. induction l as [|x l IH]; simpl; intros H; [reflexivity|].
  destruct (Nat.eqb_spec (Inventory._id x) id) as [E|E]; simpl.
  - exfalso. apply H. now left.
  - f_equal. apply IH. tauto.
Qed.

Lemma lookup_removeId id id' l :
  lookup id' (removeId id l) = if Nat.eqb id' id then None else lookup id' l.
Proof.
  unfold lookup, removeId. induction l as [|x l IH]; simpl.
  - now destruct (Nat.eqb id' id).
  - destruct (Nat.eqb_spec (Inventory._id x) id) as [E|E]; simpl;
      rewrite ?IH;
      destruct (Nat.eqb_spec id' id) as [F|F];
      destruct (Nat.eqb_spec (Inventory._id x) id') as [G|G];
      try reflexivity; congruence.
Qed.

Lemma quantityOf_removeId bt id d l :
  wfInventory l ->
  lookup id l = Some d ->
  quantityOf bt (removeId id l) = quantityOf bt l - share bt d.
Proof.
  unfold wfInventory, lookup.
  induction l as [|x l IH]; intros Hnd H; [discriminate|].
  inversion_clear Hnd as [|? ? Hx Hl]. simpl in H.
  change (removeId id (x :: l))
    with (if negb (Nat.eqb (Inventory._id x) id)
          then x :: removeId id l else removeId id l).
  destruct (Nat.eqb_spec (Inventory._id x) id) as [E|E]; simpl.
  - injection H as <-. rewrite E in Hx.
    rewrite (removeId_absent _ _ Hx), quantityOf_cons. lia.
  - rewrite !quantityOf_cons, (IH Hl H). lia.
Qed.

(** DELETE /api/inventory/:id of [server.js], when the command goes
    through.  A parameter that is no ObjectId is answered 500 with the
    message of the cast error, and no command is sent.  For an ObjectId:
    an unknown id is answered 404 and nothing changes; otherwise the batch
    is gone, every other batch is as before, and the quantity of each blood
    type drops by what the batch held of it.  The requests are never
    touched. *)
Theorem deleteInventory_effect env p w resp w' :
  wfInventory (inventories w) ->
  writeFault env (writes w) = None ->
  ServerJsRoutes.deleteInventory env p w = (resp, w') ->
  requests w' = requests w
  /\ match p with
     | CastError errorMessage =>
         code resp = 500%nat /\ details resp = Some errorMessage
         /\ inventories w' = inventories w /\ writes w' = writes w
     | IdOf id =>
         match lookup id (inventories w) with
         | None => code resp = 404%nat /\ inventories w' = inventories w
         | Some d =>
             code resp = 200%nat
             /\ lookup id (inventories w') = None
             /\ (forall id', id' <> id ->
                             lookup id' (inventories w') = lookup id' (inventories w))
             /\ (forall bt, quantityOf bt (inventories w')
                            = quantityOf bt (inventories w) - share bt d)
         end
     end.
Proof.
  intros Hwf Hf. unfold ServerJsRoutes.deleteInventory, Inventory_findByIdAndDelete,
    tryCatch, bind, castObjectId, ret.
  destruct p as [id|e]; cbv beta iota.
  2:{ intros H; injection H as <- <-. simpl. auto. }
  rewrite Hf. fold (removeId id (inventories w)).
  destruct (lookup id (inventories w)) as [d|] eqn:Hl;
    intros H; injection H as <- <-; simpl; split; try reflexivity.
  - split; [reflexivity|]. split; [|split].
    + rewrite lookup_removeId. now rewrite Nat.eqb_refl.
    + intros id' Hne. rewrite lookup_removeId.
      destruct (Nat.eqb_spec id' id); [contradiction|reflexivity].
    + intros bt. now apply quantityOf_removeId.
  - split; [reflexivity|]. apply removeId_absent. now apply lookup_None.
Qed.

Lemma deleteInventory_effect_witness :
  let r := ServerJsRoutes.deleteInventory (calmEnv 100) (IdOf 2%nat) scenarioWorld in
  let r' := ServerJsRoutes.deleteInventory (calmEnv 100)
              (CastError (castErrorMessage_xyz "Inventory")) scenarioWorld in
  (requests (snd r) = requests scenarioWorld
   /\ match lookup 2%nat (inventories scenarioWorld) with
      | None => code (fst r) = 404%nat
                /\ inventories (snd r) = inventories scenarioWorld
      | Some d =>
          code (fst r) = 200%nat
          /\ lookup 2%nat (inventories (snd r)) = None
          /\ (forall id', id' <> 2%nat ->
                          lookup id' (inventories (snd r))
                          = lookup id' (inventories scenarioWorld))
          /\ (forall bt, quantityOf bt (inventories (snd r))
                         = quantityOf bt (inventories scenarioWorld) - share bt d)
      end)
  /\ (requests (snd r') = requests scenarioWorld
      /\ code (fst r') = 500%nat
      /\ details (fst r') = Some (castErrorMessage_xyz "Inventory")
      /\ inventories (snd r') = inventories scenarioWorld
      /\ writes (snd r') = writes scenarioWorld).
Proof.
  intros r r'. split.
  - apply (deleteInventory_effect (calmEnv 100) (IdOf 2%nat) scenarioWorld).
    + apply scenarioWorld_wf.
    + reflexivity.
    + apply surjective_pairing.
  - apply (deleteInventory_effect (calmEnv 100)
             (CastError (castErrorMessage_xyz "Inventory")) scenarioWorld
             (fst r') (snd r')).
    + apply scenarioWorld_wf.
    + reflexivity.
    + apply surjective_pairing.
Defined.

Lemma lookupRequest_remove id id' l :
  lookupRequest id' (filter (fun r => negb (Nat.eqb (Request._id r) id)) l)
  = if Nat.eqb id' id then None else lookupRequest id' l.
Proof.
  unfold lookupRequest. induction l as [|x l IH]; simpl.
  - now destruct (Nat.eqb id' id).
  - destruct (Nat.eqb_spec (Request._id x) id) as [E|E]; simpl;
      rewrite ?IH;
      destruct (Nat.eqb_spec id' id) as [F|F];
      destruct (Nat.eqb_spec (Request._id x) id') as [G|G];
      try reflexivity; congruence.
Qed.

(** DELETE /api/requests/:id of [server.js] never touches the inventory:
    deleting a fulfilled request leaves the units it consumed in status
    used.  When it answers 200 the request existed and is gone; the other
    requests are as before in every case. *)
Theorem deleteRequest_keeps_inventory env id w resp w' :
  ServerJsRoutes.deleteRequest env id w = (resp, w') ->
  inventories w' = inventories w
  /\ (code resp = 200%nat ->
      lookupRequest id (requests w) <> None
      /\ lookupRequest id (requests w') = None)
  /\ (code resp = 404%nat -> lookupRequest id (requests w) = None)
  /\ (forall id', id' <> id ->
                  lookupRequest id' (requests w') = lookupRequest id' (requests w)).
Proof.
  unfold ServerJsRoutes.deleteRequest, tryCatch, bind,
    Request_findByIdAndDelete, ret.
  destruct (writeFault env (writes w)).
  - intros H. injection H as <- <-. simpl.
    repeat split; auto; discriminate.
  - destruct (lookupRequest id (requests w)) eqn:Hl;
      intros H; injection H as <- <-; simpl;
      (split; [reflexivity|]); (split; [|split]); try discriminate.
    + intros _. split; [discriminate|].
      rewrite lookupRequest_remove. now rewrite Nat.eqb_refl.
    + intros id' Hne. rewrite lookupRequest_remove.
      destruct (Nat.eqb_spec id' id); [contradiction|reflexivity].
    + reflexivity.
    + intros id' Hne. rewrite lookupRequest_remove.
      destruct (Nat.eqb_spec id' id); [contradiction|reflexivity].
Qed.

Lemma deleteRequest_keeps_inventory_witness :
  let w1 := snd (approve Fulfilling (calmEnv 100) 7%nat scenarioWorld) in
  let r := ServerJsRoutes.deleteRequest (calmEnv 100) 7%nat w1 in
  inventories (snd r) = inventories w1
  /\ (code (fst r) = 200%nat ->
      lookupRequest 7%nat (requests w1) <> None
      /\ lookupRequest 7%nat (requests (snd r)) = None)
  /\ (code (fst r) = 404%nat -> lookupRequest 7%nat (requests w1) = None)
  /\ (forall id', id' <> 7%nat ->
                  lookupRequest id' (requests (snd r))
                  = lookupRequest id' (requests w1)).
Proof.
  intros w1 r.
  apply (deleteRequest_keeps_inventory (calmEnv 100) 7%nat w1).
  apply surjective_pairing.
Defined.

(* ----------------------------------------------------------------- *)
(** *** The generic update of a request *)



(** A status outside the enum of [server.js] (such as the second server's
    approved) is answered 500 before any command is sent, also when the id
    is unknown: nothing is written. *)
Theorem updateRequest_invalid_status env id status w resp w' :
  ServerJs_status_ofString status = None ->
  ServerJsRoutes.updateRequest env id status w = (resp, w') ->
  code resp = 500%nat /\ Unchanged w w' /\ writes w' = writes w.
Proof.
  intros Hs. unfold ServerJsRoutes.updateRequest, tryCatch, bind, newDate.
  rewrite Hs. intros H. injection H as <- <-. unfold Unchanged. simpl. auto.
Qed.

Lemma updateRequest_invalid_status_witness :
  let r := ServerJsRoutes.updateRequest (calmEnv 100) 99%nat "approved"
             scenarioWorld in
  code (fst r) = 500%nat /\ Unchanged scenarioWorld (snd r)
  /\ writes (snd r) = writes scenarioWorld.
Proof.
  intros r.
  apply (updateRequest_invalid_status (calmEnv 100) 99%nat "approved").
  - reflexivity.
  - apply surjective_pairing.
Defined.

(* ----------------------------------------------------------------- *)
(** *** The availability route *)

Lemma BloodType_toString_eqb a b :
  String.eqb (BloodType_toString a) (BloodType_toString b) = BloodType_eqb a b.
Proof. destruct a, b; reflexivity. Qed.

Lemma sumFilter_sweepExpired name now l :
  sumUnits (filter (ReserveRoutes.availableOfName name) (sweepExpired now l))
  = sumUnits (filter (fun d => ReserveRoutes.availableOfName name d
                               && negb (Inventory.expiryDate d <? now)) l).
Proof.
  unfold sweepExpired, ReserveRoutes.availableOfName.
  induction l as [|d l IH]; [reflexivity|].
  cbn [map]. rewrite !sumFilter_cons, IH. f_equal. unfold weight.
  destruct (Inventory.expiryDate d <? now);
    destruct (InventoryStatus_eqb (Inventory.status d) available) eqn:E;
    simpl; rewrite ?E, ?andb_false_r, ?andb_true_r; reflexivity.
Qed.

(** GET /api/inventory/availability/:bloodType of the second server, when
    its sweep goes through: the number it reports is the quantity of the
    batches of that type that are available and have not expired before
    now, and the inventory is left swept.  Up to 5 units are reported as
    out-of-stock and up to 10 as critical. *)
Theorem availability_after_sweep env bloodType w r w' :
  writeFault env (writes w) = None ->
  ReserveRoutes.availability env bloodType w = (r, w') ->
  let now := clock env (ticks w) in
  let n := sumUnits (filter (fun d => ReserveRoutes.availableOfName bloodType d
                                      && negb (Inventory.expiryDate d <? now))
                       (inventories w)) in
  r = AvailabilityOk bloodType n
        (if 10 <? n then "available"
         else if 5 <? n then "critical" else "out-of-stock")
  /\ inventories w' = sweepExpired now (inventories w)
  /\ requests w' = requests w.
Proof.
  intros Hf. unfold ReserveRoutes.availability, checkExpiredBlood,
    Inventory_updateMany_expire, tryCatch, bind, newDate, write, ret.
  simpl. rewrite Hf.
  match goal with
  | |- context [Inventory_aggregate_totalUnits ?m ?w1] =>
      destruct (aggregate_total m w1) as [g [Hg Ht]]; rewrite Hg; simpl in Ht
  end.
  intros H. injection H as <- <-. simpl.
  rewrite Ht, sumFilter_sweepExpired. auto.
Qed.

Lemma availability_after_sweep_witness :
  let env := calmEnv 100 in
  let w := mkWorld [staleBatch; batchA] [] [] 0%nat 0%nat in
  let r := ReserveRoutes.availability env "A+" w in
  let n := sumUnits (filter (fun d => ReserveRoutes.availableOfName "A+" d
                                      && negb (Inventory.expiryDate d <? 100))
                       (inventories w)) in
  fst r = AvailabilityOk "A+" n
            (if 10 <? n then "available"
             else if 5 <? n then "critical" else "out-of-stock")
  /\ inventories (snd r) = sweepExpired 100 (inventories w)
  /\ requests (snd r) = requests w.
Proof.
  intros env w r.
  apply (availability_after_sweep env "A+" w (fst r) (snd r)).
  - reflexivity.
  - apply surjective_pairing.
Defined.

(** What the availability route reports for a blood type is the quantity
    the approval of the second server compares with a request of that
    type right after it: the approval answers 400 exactly when the
    reported number is less than the requested quantity. *)
Theorem availability_agrees_with_approve
        env env2 id w w1 req name n st resp w2 :
  ReserveRoutes.availability env (BloodType_toString (Request.bloodType req)) w
  = (AvailabilityOk name n st, w1) ->
  lookupRequest id (requests w1) = Some req ->
  approve Reserving env2 id w1 = (resp, w2) ->
  totalAvailable Reserving env2 req w1 = n
  /\ (code resp = 400%nat <-> n < Request.units req).
Proof.
  intros Hav Hreq Hrun.
  assert (Hn : totalAvailable Reserving env2 req w1 = n).
  { revert Hav. unfold ReserveRoutes.availability, checkExpiredBlood,
      Inventory_updateMany_expire, tryCatch, bind, newDate, write, ret.
    simpl. destruct (writeFault env (writes w)); [discriminate|].
    match goal with
    | |- context [Inventory_aggregate_totalUnits ?m ?w0] =>
        destruct (aggregate_total m w0) as [g [Hg Ht]]; rewrite Hg; simpl in Ht
    end.
    intros H. injection H as _ <- _ <-. simpl. rewrite Ht.
    f_equal. apply filter_ext. intros d.
    unfold ReserveRoutes.availableOfName, Reserve.selectable.
    now rewrite BloodType_toString_eqb. }
  split; [exact Hn|].
  apply approve_anatomy in Hrun.
  destruct Hrun as [Hnone _ _ | req0 Hv _ _ _ _ _
                    | req0 Hreq0 _ Hlt Hc _ _
                    | req0 ok Hreq0 _ Hge _ Hend ].
  - congruence.
  - discriminate.
  - assert (req0 = req) as -> by congruence. rewrite Hn in Hlt. tauto.
  - assert (req0 = req) as -> by congruence. rewrite Hn in Hge.
    split; [|lia].
    destruct Hend as [req' _ Hc _ _ _ | Hc _ _ | req' _ _ Hc _ _ _];
      rewrite Hc; discriminate.
Qed.

Lemma availability_agrees_with_approve_witness :
  let env := calmEnv 100 in
  let a := ReserveRoutes.availability env "A+" scenarioWorld in
  let r := approve Reserving env 7%nat (snd a) in
  totalAvailable Reserving env (requestA pending 5) (snd a) = 7
  /\ (code (fst r) = 400%nat <-> 7 < Request.units (requestA pending 5)).
Proof.
  intros env a r.
  apply (availability_agrees_with_approve env env 7%nat scenarioWorld (snd a)
           (requestA pending 5) "A+" 7 "critical" (fst r) (snd r)).
  - reflexivity.
  - reflexivity.
  - apply surjective_pairing.
Defined.

(* ================================================================= *)
(** ** Donors, and the routes that use them *)

Module Donor.
(** [donorSchema] *)
Record doc := mk {
  _id : ObjectId;
  name : string;
  age : Z;
  bloodType : BloodType;
  phone : string;
  email : string;
  address : string;
  lastDonation : option Date;
  isActive : bool;
  createdAt : Date;
  updatedAt : Date
}.

Definition with_lastDonation (t : option Date) (d : doc) : doc :=
  mk (_id d) (name d) (age d) (bloodType d) (phone d) (email d) (address d)
     t (isActive d) (createdAt d) (updatedAt d).

Definition with_isActive (a : bool) (d : doc) : doc :=
  mk (_id d) (name d) (age d) (bloodType d) (phone d) (email d) (address d)
     (lastDonation d) a (createdAt d) (updatedAt d).

Definition with_updatedAt (t : Date) (d : doc) : doc :=
  mk (_id d) (name d) (age d) (bloodType d) (phone d) (email d) (address d)
     (lastDonation d) (isActive d) (createdAt d) t.

(** The body of POST /api/donors: the fields of the form. *)
Record body := mkBody {
  b_name : string;
  b_age : Z;
  b_bloodType : BloodType;
  b_phone : string;
  b_email : string;
  b_address : string
}.
End Donor.

(** The database with the donors, and with the [notes] path of the
    requests of the second server (kept beside the request documents). *)
Record Bank := mkBank {
  world : World;
  donors : list Donor.doc;
  requestNotes : list (ObjectId * string)
}.

(** The setters of the string paths of the schemas: [trim], and
    [lowercase] with [trim] for the e-mail. *)
Record Setters := mkSetters {
  trim : string -> string;
  lowercaseTrim : string -> string
}.

Definition BM (A : Type) : Type := Bank -> Outcome A * Bank.

Definition retB {A} (a : A) : BM A := fun b => (Ok a, b).

Definition bindB {A B} (m : BM A) (k : A -> BM B) : BM B :=
  fun b =>
    match m b with
    | (Ok a, b') => k a b'
    | (Thrown e, b') => (Thrown e, b')
    end.

Notation "x <== c1 ;; c2" := (bindB c1 (fun x => c2))
  (at level 61, c1 at next level, right associativity).

(** An action on the three collections of [World], run on the bank. *)
Definition liftW {A} (m : M A) : BM A :=
  fun b =>
    match m (world b) with
    | (r, w') => (r, mkBank w' (donors b) (requestNotes b))
    end.

(** [try { ... } catch (e) { console.warn(...) }] inside a handler. *)
Definition attempt (m : BM unit) : BM unit :=
  fun b =>
    match m b with
    | (Ok tt, b') => (Ok tt, b')
    | (Thrown _, b') => (Ok tt, b')
    end.

Definition tryCatchB {A} (m : BM A) (handler : string -> A) : Bank -> A * Bank :=
  fun b =>
    match m b with
    | (Ok a, b') => (a, b')
    | (Thrown e, b') => (handler e, b')
    end.

Definition upsertDonor (d : Donor.doc) (l : list Donor.doc) : list Donor.doc :=
  if existsb (fun x => Nat.eqb (Donor._id x) (Donor._id d)) l
  then map (fun x => if Nat.eqb (Donor._id x) (Donor._id d) then d else x) l
  else l ++ [d].

Definition lookupDonor (id : ObjectId) (l : list Donor.doc) : option Donor.doc :=
  find (fun x => Nat.eqb (Donor._id x) id) l.

Definition freshDonorId (l : list Donor.doc) : ObjectId :=
  S (fold_right Nat.max 0%nat (map Donor._id l)).

Definition setNote (id : ObjectId) (note : string)
           (l : list (ObjectId * string)) : list (ObjectId * string) :=
  (id, note) :: filter (fun p => negb (Nat.eqb (fst p) id)) l.

(** The answer of a donor route, and of POST /api/inventory. *)
Record DonorResponse := mkDonorResponse {
  d_code : nat;
  d_success : bool;
  d_error : option string;
  d_message : option string;
  d_details : option string;
  d_data : option Donor.doc
}.

Record InventoryResponse := mkInventoryResponse {
  i_code : nat;
  i_success : bool;
  i_error : option string;
  i_message : option string;
  i_details : option string;
  i_data : option Inventory.doc
}.

(** The body of POST /api/inventory, after the validators. *)
Record InventoryBody := mkInventoryBody {
  ib_bloodType : BloodType;
  ib_donorId : option ObjectId;
  ib_collectionDate : Date;
  ib_units : Z;
  ib_expiryDate : Date
}.

(** The [data] of GET /api/stats. *)
Record Stats := mkStats {
  totalDonors : nat;
  totalUnits : Z;
  pendingRequests : nat;
  criticalLevels : nat
}.

Inductive StatsResponse :=
| StatsOk (data : Stats)
| StatsFailed (error details : string).

(** [{ $group: { _id: '$bloodType', totalUnits: { $sum: '$units' } } }]:
    one group per blood type that occurs, with the sum of its units. *)
Fixpoint addToGroup (bt : BloodType) (units : Z) (groups : list (BloodType * Z))
  : list (BloodType * Z) :=
  match groups with
  | [] => [(bt, units)]
  | (k, total) :: rest =>
      if BloodType_eqb k bt then (k, total + units) :: rest
      else (k, total) :: addToGroup bt units rest
  end.

Definition groupByBloodType (l : list Inventory.doc) : list (BloodType * Z) :=
  fold_left (fun groups d =>
               addToGroup (Inventory.bloodType d) (Inventory.units d) groups)
            l [].

Section BankPrimitives.

Variable env : Env.

(** A write command on the bank reaches the database or throws. *)
Definition writeB (f : Bank -> Bank) : BM unit :=
  fun b =>
    let w := world b in
    let b1 := mkBank (mkWorld (inventories w) (requests w) (recipients w)
                              (ticks w) (S (writes w)))
                     (donors b) (requestNotes b) in
    match writeFault env (writes w) with
    | Some e => (Thrown e, b1)
    | None => (Ok tt, f b1)
    end.

(** [Donor.findOne({ email })] *)
Definition Donor_findOne_email (email : string) : BM (option Donor.doc) :=
  fun b => (Ok (find (fun d => String.eqb (Donor.email d) email) (donors b)), b).

(** [Donor.findById(id)] *)
Definition Donor_findById (id : ObjectId) : BM (option Donor.doc) :=
  fun b => (Ok (lookupDonor id (donors b)), b).

(** [donor.save()] *)
Definition Donor_save (d : Donor.doc) : BM unit :=
  writeB (fun b => mkBank (world b) (upsertDonor d (donors b)) (requestNotes b)).

(** [Donor.findByIdAndUpdate(id, { isActive: false, updatedAt }, { new: true })],
    for a parameter that is an ObjectId *)
Definition Donor_findByIdAndUpdate_inactive (id : ObjectId) (t : Date)
  : BM (option Donor.doc) :=
  fun b =>
    match writeB (fun b => b) b with
    | (Thrown e, b1) => (Thrown e, b1)
    | (Ok _, b1) =>
        match lookupDonor id (donors b1) with
        | None => (Ok None, b1)
        | Some d =>
            let d' := Donor.with_updatedAt t (Donor.with_isActive false d) in
            (Ok (Some d'),
             mkBank (world b1) (upsertDonor d' (donors b1)) (requestNotes b1))
        end
    end.

(** [Donor.countDocuments({ isActive: true })] *)
Definition Donor_count_active : BM nat :=
  fun b => (Ok (List.length (filter Donor.isActive (donors b))), b).

(** [Request.countDocuments({ status: 'pending' })] *)
Definition Request_count_pending : BM nat :=
  fun b =>
    (Ok (List.length
           (filter (fun r => RequestStatus_eqb (Request.status r) pending)
                   (requests (world b)))), b).

(** The second aggregation of the statistics: available batches grouped by
    blood type, the groups below 5 units counted.  [$count] gives no
    document when nothing is left to count. *)
Definition Inventory_aggregate_critical : BM (list nat) :=
  fun b =>
    let groups :=
      groupByBloodType
        (filter (fun d => InventoryStatus_eqb (Inventory.status d) available)
                (inventories (world b))) in
    match filter (fun g => snd g <? 5) groups with
    | [] => (Ok [], b)
    | low => (Ok [List.length low], b)
    end.

End BankPrimitives.

Module ServerJsBank.
Section Routes.

Variable env : Env.
Variable setters : Setters.

(** [new Donor(req.body)] *)
Definition Donor_new (body : Donor.body) : BM Donor.doc :=
  fun b =>
    (created <== liftW (newDate env) ;;
     updated <== liftW (newDate env) ;;
     retB (Donor.mk (freshDonorId (donors b))
             (trim setters (Donor.b_name body)) (Donor.b_age body)
             (Donor.b_bloodType body) (trim setters (Donor.b_phone body))
             (lowercaseTrim setters (Donor.b_email body))
             (trim setters (Donor.b_address body))
             None true created updated)) b.

(** POST /api/donors, after the validators; the query is cast through the
    setters of the path. *)
Definition createDonor (body : Donor.body) : Bank -> DonorResponse * Bank :=
  tryCatchB
    (existingDonor <==
       Donor_findOne_email (lowercaseTrim setters (Donor.b_email body)) ;;
     match existingDonor with
     | Some _ =>
         retB (mkDonorResponse 400 false
                 (Some "A donor with this email already exists.") None None None)
     | None =>
         donor <== Donor_new body ;;
         _ <== Donor_save env donor ;;
         retB (mkDonorResponse 201 true None
                 (Some "Donor registered successfully!") None (Some donor))
     end)
    (fun errorMessage =>
       mkDonorResponse 500 false (Some "Failed to register donor") None
         (Some errorMessage) None).

(** DELETE /api/donors/:id, for a parameter that is an ObjectId: a soft
    delete. *)
Definition deleteDonor (id : ObjectId) : Bank -> DonorResponse * Bank :=
  tryCatchB
    (now <== liftW (newDate env) ;;
     donor <== Donor_findByIdAndUpdate_inactive env id now ;;
     match donor with
     | None =>
         retB (mkDonorResponse 404 false (Some "Donor not found.") None None None)
     | Some donor =>
         retB (mkDonorResponse 200 true None
                 (Some "Donor marked as inactive successfully.") None (Some donor))
     end)
    (fun errorMessage =>
       mkDonorResponse 500 false (Some "Failed to delete donor") None
         (Some errorMessage) None).

(** POST /api/inventory, after the validators (which require an expiry
    date). *)
Definition createInventory (body : InventoryBody)
  : Bank -> InventoryResponse * Bank :=
  tryCatchB
    (let finalExpiryDate := ib_expiryDate body in
     bloodUnit <==
       liftW (Inventory_new env
                (Inventory.mkInit (ib_bloodType body) (ib_units body)
                   (ib_donorId body) (Some (ib_collectionDate body))
                   finalExpiryDate None None)) ;;
     _ <== liftW (Inventory_save env bloodUnit) ;;
     (* Attempt to update donor's last donation date if donorId is present *)
     _ <== match ib_donorId body with
           | Some donorId =>
               attempt
                 (donor <== Donor_findById donorId ;;
                  match donor with
                  | Some donor =>
                      if (match Donor.lastDonation donor with
                          | Some t => t
                          | None => 0
                          end) <? ib_collectionDate body
                      then
                        let donor :=
                          Donor.with_lastDonation (Some (ib_collectionDate body))
                                                  donor in
                        now <== liftW (newDate env) ;;
                        let donor := Donor.with_updatedAt now donor in
                        Donor_save env donor
                      else retB tt
                  | None => retB tt
                  end)
           | None => retB tt
           end ;;
     retB (mkInventoryResponse 201 true None
             (Some "Blood unit added successfully!") None (Some bloodUnit)))
    (fun errorMessage =>
       mkInventoryResponse 500 false (Some "Failed to add blood unit") None
         (Some errorMessage) None).

(** GET /api/stats *)
Definition stats : Bank -> StatsResponse * Bank :=
  tryCatchB
    (_ <== liftW (checkExpiredBlood env) ;;
     totalDonors <== Donor_count_active ;;
     totalInventoryUnits <==
       liftW (Inventory_aggregate_totalUnits
                (fun d => InventoryStatus_eqb (Inventory.status d) available)) ;;
     pendingRequests <== Request_count_pending ;;
     criticalLevels <== Inventory_aggregate_critical ;;
     retB (StatsOk
             (mkStats totalDonors
                (match totalInventoryUnits with
                 | totalUnits :: _ => totalUnits
                 | [] => 0
                 end)
                pendingRequests
                (match criticalLevels with
                 | criticalBloodTypes :: _ => criticalBloodTypes
                 | [] => 0%nat
                 end))))
    (fun errorMessage =>
       StatsFailed "Failed to fetch dashboard stats" errorMessage).

End Routes.
End ServerJsBank.

Module ReserveBank.
Section Routes.

Variable env : Env.
Variable setters : Setters.

(** PUT /api/requests/:id/reject of the second server; [notes] is
    [req.body.notes].  The path [notes] of the schema has [trim: true]:
    the assignment stores the trimmed string. *)
Definition reject (id : IdParam) (notes : option string)
  : Bank -> Response * Bank :=
  tryCatchB
    (request <== liftW (Request_findById id) ;;
     match request with
     | None =>
         retB (mkResponse 404 false (Some "Request not found") None None None)
     | Some request =>
         let request := Request.with_status rejected request in
         let request := Request.with_processedBy "System Admin" request in
         let requestNote :=
           trim setters
             match notes with
             | Some (String c s) => String c s
             | _ => "Request rejected by admin"
             end in
         now <== liftW (newDate env) ;;
         let request := Request.with_updatedAt now request in
         _ <== writeB env
                 (fun b =>
                    let w := world b in
                    mkBank (mkWorld (inventories w)
                                    (upsertRequest request (requests w))
                                    (recipients w) (ticks w) (writes w))
                           (donors b)
                           (setNote (Request._id request) requestNote
                                    (requestNotes b))) ;;
         (* Update recipient status *)
         now <== liftW (newDate env) ;;
         _ <== liftW (Recipient_findByIdAndUpdate env
                        (Request.recipientId request) rejected now) ;;
         retB (mkResponse 200 true None (Some "Request rejected successfully")
                 None (Some request))
     end)
    (fun errorMessage =>
       mkResponse 500 false (Some "Failed to reject request") None
         (Some errorMessage) None).

End Routes.
End ReserveBank.

(* ----------------------------------------------------------------- *)
(** *** Donors *)

Definition donorIds (l : list Donor.doc) : list ObjectId := map Donor._id l.

Lemma freshDonorId_fresh l : ~ In (freshDonorId l) (donorIds l).
Proof.
  assert (H : forall x, In x (donorIds l) -> (x < freshDonorId l)%nat).
  { unfold freshDonorId, donorIds. induction l as [|d l IH]; simpl; [tauto|].
    intros x [Hx|Hx]; [subst; lia|]. specialize (IH x Hx). lia. }
  intros Hin. apply H in Hin. lia.
Qed.

Lemma upsertDonor_new d l :
  ~ In (Donor._id d) (donorIds l) -> upsertDonor d l = l ++ [d].
Proof.
  intros H. unfold upsertDonor.
  destruct (existsb _ l) eqn:E; [|reflexivity].
  exfalso. apply H. apply existsb_exists in E as [x [Hx Hx']].
  apply Nat.eqb_eq in Hx'. rewrite <- Hx'. now apply in_map.
Qed.

Lemma emails_upsertDonor d l :
  (forall x, In x l -> Donor._id x = Donor._id d -> Donor.email x = Donor.email d) ->
  In (Donor._id d) (donorIds l) ->
  map Donor.email (upsertDonor d l) = map Donor.email l.
Proof.
  intros Hsame Hin. unfold upsertDonor.
  assert (E : existsb (fun x => Nat.eqb (Donor._id x) (Donor._id d)) l = true).
  { apply existsb_exists. apply in_map_iff in Hin as [x [Hx Hx']].
    exists x. split; [assumption|now apply Nat.eqb_eq]. }
  rewrite E. rewrite map_map. apply map_ext_in. intros x Hx.
  destruct (Nat.eqb_spec (Donor._id x) (Donor._id d)); [|reflexivity].
  symmetry. now apply Hsame.
Qed.

Lemma find_email_None e l :
  find (fun d => String.eqb (Donor.email d) e) l = None ->
  ~ In e (map Donor.email l).
Proof.
  intros H Hin. apply in_map_iff in Hin as [d [E Hd]].
  apply (find_none _ _ H) in Hd. apply String.eqb_neq in Hd. contradiction.
Qed.

Lemma find_email_Some e l :
  In e (map Donor.email l) ->
  find (fun d => String.eqb (Donor.email d) e) l <> None.
Proof.
  intros Hin H. now apply (find_email_None _ _ H).
Qed.

(** POST /api/donors keeps the e-mail addresses of the donors pairwise
    distinct, whatever its outcome; an address that is already there, as
    the setters store it, is answered 400 and nothing is written. *)
Theorem createDonor_keeps_emails_unique env setters body b resp b' :
  NoDup (map Donor.email (donors b)) ->
  ServerJsBank.createDonor env setters body b = (resp, b') ->
  NoDup (map Donor.email (donors b'))
  /\ (In (lowercaseTrim setters (Donor.b_email body))
         (map Donor.email (donors b)) ->
      d_code resp = 400%nat /\ donors b' = donors b
      /\ inventories (world b') = inventories (world b)
      /\ requests (world b') = requests (world b)).
Proof.
  intros Hnd. unfold ServerJsBank.createDonor, tryCatchB, bindB,
    Donor_findOne_email, ServerJsBank.Donor_new, Donor_save, writeB, liftW,
    newDate, retB. simpl.
  destruct (find _ (donors b)) as [d|] eqn:Hfind.
  - intros H. injection H as <- <-. auto.
  - pose proof (find_email_None _ _ Hfind) as Hnew.
    destruct (writeFault env (writes (world b)));
      intros H; injection H as <- <-; simpl.
    + split; [assumption|]. intros Hin. contradiction.
    + split; [|intros Hin; contradiction].
      rewrite upsertDonor_new by apply freshDonorId_fresh.
      rewrite map_app. apply NoDup_app; [assumption|repeat constructor; simpl; tauto|].
      simpl. intros x Hx [E|[]]. subst x. contradiction.
Qed.

Definition donorAnn : Donor.doc :=
  Donor.mk 9%nat "Ann" 30 A_pos "0123456789" "ann@example.org"
           "1 Main Street, Town" None true 5 5.

Definition scenarioBank : Bank := mkBank scenarioWorld [donorAnn] [].

(** Setters on strings that are trimmed and in lower case already. *)
Definition plainSetters : Setters := mkSetters (fun s => s) (fun s => s).

Lemma createDonor_keeps_emails_unique_witness :
  let body := Donor.mkBody "Bob" 40 O_neg "0987654321" "ann@example.org"
                           "2 Side Street, Town" in
  let r := ServerJsBank.createDonor (calmEnv 100) plainSetters body scenarioBank in
  NoDup (map Donor.email (donors (snd r)))
  /\ (In (lowercaseTrim plainSetters (Donor.b_email body))
         (map Donor.email (donors scenarioBank)) ->
      d_code (fst r) = 400%nat /\ donors (snd r) = donors scenarioBank
      /\ inventories (world (snd r)) = inventories (world scenarioBank)
      /\ requests (world (snd r)) = requests (world scenarioBank)).
Proof.
  intros body r.
  apply (createDonor_keeps_emails_unique (calmEnv 100) plainSetters body
           scenarioBank).
  - simpl. repeat constructor. simpl. tauto.
  - apply surjective_pairing.
Defined.

Lemma lookupDonor_In id l d : lookupDonor id l = Some d -> In d l /\ Donor._id d = id.
Proof.
  unfold lookupDonor. intros H. apply find_some in H as [H1 H2].
  apply Nat.eqb_eq in H2. tauto.
Qed.

Lemma In_email_upsertDonor d d' l :
  In d l -> Donor.email d' = Donor.email d ->
  In (Donor.email d) (map Donor.email (upsertDonor d' l)).
Proof.
  intros Hin He. unfold upsertDonor. destruct (existsb _ l).
  - apply in_map_iff.
    exists (if Nat.eqb (Donor._id d) (Donor._id d') then d' else d). split.
    + now destruct (Nat.eqb _ _).
    + apply in_map_iff. now exists d.
  - rewrite map_app, in_app_iff. left. now apply in_map.
Qed.

(** A donor is deleted softly: whether or not DELETE /api/donors/:id went
    through, the e-mail address of the donor stays taken, and a
    registration with it is answered 400 and writes nothing. *)
Theorem deleted_donor_keeps_email env env2 setters id b d resp b1 body resp2 b2 :
  lookupDonor id (donors b) = Some d ->
  ServerJsBank.deleteDonor env id b = (resp, b1) ->
  lowercaseTrim setters (Donor.b_email body) = Donor.email d ->
  ServerJsBank.createDonor env2 setters body b1 = (resp2, b2) ->
  d_code resp2 = 400%nat /\ donors b2 = donors b1
  /\ (d_code resp = 200%nat ->
      exists d', lookupDonor id (donors b1) = Some d'
                 /\ Donor.isActive d' = false
                 /\ Donor.email d' = Donor.email d).
Proof.
  intros Hd Hdel Hemail Hcreate.
  destruct (lookupDonor_In _ _ _ Hd) as [Hin Hid].
  assert (Hstill : In (Donor.email d) (map Donor.email (donors b1))
                   /\ (d_code resp = 200%nat ->
                       exists d', lookupDonor id (donors b1) = Some d'
                                  /\ Donor.isActive d' = false
                                  /\ Donor.email d' = Donor.email d)).
  { revert Hdel. unfold ServerJsBank.deleteDonor, tryCatchB, bindB, liftW,
      newDate, Donor_findByIdAndUpdate_inactive, writeB, retB. simpl.
    destruct (writeFault env (writes (world b))); simpl.
    - intros H. injection H as <- <-. simpl. split; [now apply in_map|].
      discriminate.
    - rewrite Hd. intros H. injection H as <- <-. simpl. split.
      + now apply In_email_upsertDonor.
      + intros _.
        exists (Donor.with_updatedAt (clock env (ticks (world b)))
                  (Donor.with_isActive false d)).
        split; [|split; reflexivity].
        unfold lookupDonor, upsertDonor.
        assert (E : existsb (fun x => Nat.eqb (Donor._id x) (Donor._id d))
                            (donors b) = true).
        { apply existsb_exists. exists d. split; [assumption|apply Nat.eqb_refl]. }
        simpl. rewrite E. rewrite <- Hid. clear - E.
        induction (donors b) as [|x l IH]; [discriminate|]. simpl in *.
        destruct (Nat.eqb_spec (Donor._id x) (Donor._id d)) as [F|F]; simpl.
        * now rewrite Nat.eqb_refl.
        * destruct (Nat.eqb_spec (Donor._id x) (Donor._id d)); [contradiction|].
          auto. }
  destruct Hstill as [Hstill Hinactive].
  revert Hcreate. unfold ServerJsBank.createDonor, tryCatchB, bindB,
    Donor_findOne_email, retB. rewrite Hemail.
  destruct (find _ (donors b1)) eqn:Hfind.
  - intros H. injection H as <- <-. auto.
  - exfalso. now apply (find_email_Some _ _ Hstill).
Qed.

Lemma deleted_donor_keeps_email_witness :
  let body := Donor.mkBody "Ann" 30 A_pos "0123456789" "ann@example.org"
                           "1 Main Street, Town" in
  let r := ServerJsBank.deleteDonor (calmEnv 100) 9%nat scenarioBank in
  let r2 := ServerJsBank.createDonor (calmEnv 200) plainSetters body (snd r) in
  d_code (fst r2) = 400%nat /\ donors (snd r2) = donors (snd r)
  /\ (d_code (fst r) = 200%nat ->
      exists d', lookupDonor 9%nat (donors (snd r)) = Some d'
                 /\ Donor.isActive d' = false
                 /\ Donor.email d' = Donor.email donorAnn).
Proof.
  intros body r r2.
  apply (deleted_donor_keeps_email (calmEnv 100) (calmEnv 200) plainSetters
           9%nat scenarioBank donorAnn (fst r) (snd r) body (fst r2) (snd r2)).
  - reflexivity.
  - apply surjective_pairing.
  - reflexivity.
  - apply surjective_pairing.
Defined.

(* ----------------------------------------------------------------- *)
(** *** Adding a blood unit *)

(** [donor.lastDonation || 0] *)
Definition lastOrEpoch (d : Donor.doc) : Date :=
  match Donor.lastDonation d with
  | Some t => t
  | None => 0
  end.

Lemma lookupDonor_upsertDonor id d l :
  lookupDonor id (upsertDonor d l) =
  if Nat.eqb (Donor._id d) id then Some d else lookupDonor id l.
Proof.
  unfold lookupDonor, upsertDonor.
  destruct (existsb _ l) eqn:E.
  - induction l as [|x l IH]; [discriminate|]. simpl in E |- *.
    destruct (Nat.eqb_spec (Donor._id x) (Donor._id d)) as [F|F]; simpl.
    + destruct (Nat.eqb_spec (Donor._id d) id) as [G|G].
      * reflexivity.
      * destruct (Nat.eqb_spec (Donor._id x) id); [congruence|].
        clear IH E.
        induction l as [|y l IH]; simpl; [reflexivity|].
        destruct (Nat.eqb_spec (Donor._id y) (Donor._id d)) as [H|H]; simpl.
        -- destruct (Nat.eqb_spec (Donor._id d) id); [contradiction|].
           destruct (Nat.eqb_spec (Donor._id y) id); [congruence|exact IH].
        -- destruct (Nat.eqb_spec (Donor._id y) id); [reflexivity|exact IH].
    + simpl in E. rewrite (IH E).
      destruct (Nat.eqb_spec (Donor._id d) id) as [G|G];
        destruct (Nat.eqb_spec (Donor._id x) id); try reflexivity; congruence.
  - induction l as [|x l IH]; simpl in E |- *.
    + reflexivity.
    + apply orb_false_elim in E as [E1 E2]. rewrite (IH E2).
      destruct (Nat.eqb_spec (Donor._id d) id) as [G|G];
        destruct (Nat.eqb_spec (Donor._id x) id) as [F|F]; try reflexivity.
      apply Nat.eqb_neq in E1. congruence.
Qed.

(** What POST /api/inventory does when the save of the blood unit goes
    through. *)
Lemma createInventory_anatomy env body b resp b' :
  writeFault env (writes (world b)) = None ->
  ServerJsBank.createInventory env body b = (resp, b') ->
  i_code resp = 201%nat
  /\ (exists unit,
         i_data resp = Some unit
         /\ inventories (world b') = inventories (world b) ++ [unit]
         /\ Inventory._id unit = freshId (inventories (world b))
         /\ Inventory.bloodType unit = ib_bloodType body
         /\ Inventory.units unit = ib_units body
         /\ Inventory.status unit = available
         /\ Inventory.expiryDate unit = ib_expiryDate body
         /\ Inventory.collectionDate unit = ib_collectionDate body
         /\ Inventory.donorId unit = ib_donorId body)
  /\ requests (world b') = requests (world b)
  /\ (donors b' = donors b
      \/ exists i d now,
          ib_donorId body = Some i
          /\ lookupDonor i (donors b) = Some d
          /\ lastOrEpoch d < ib_collectionDate body
          /\ donors b'
             = upsertDonor
                 (Donor.with_updatedAt now
                    (Donor.with_lastDonation (Some (ib_collectionDate body)) d))
                 (donors b)).
Proof.
  intros Hf. unfold ServerJsBank.createInventory, tryCatchB, bindB, liftW,
    attempt, Inventory_new, Inventory_save, write, defaultNow, bind, ret,
    newDate, Donor_findById, Donor_save, writeB, retB. simpl. rewrite Hf. simpl.
  rewrite (upsert_new _ (inventories (world b)))
    by (simpl; apply freshId_fresh).
  destruct (ib_donorId body) as [i|] eqn:Hdonor; simpl.
  - destruct (lookupDonor i (donors b)) as [d|] eqn:Hd; simpl.
    + match goal with
      | |- context [?x <? ib_collectionDate body] =>
          change x with (lastOrEpoch d);
          destruct (Z.ltb_spec (lastOrEpoch d) (ib_collectionDate body))
            as [Hlt|Hge]
      end; simpl.
      * destruct (writeFault env (S (writes (world b)))); simpl;
          intros H; injection H as <- <-; simpl;
          (split; [reflexivity|]);
          (split; [eexists; repeat split; try reflexivity; assumption|]);
          (split; [reflexivity|]).
        -- now left.
        -- right. exists i, d. eexists. repeat split; auto.
      * intros H; injection H as <- <-; simpl.
        split; [reflexivity|].
        split; [eexists; repeat split; try reflexivity; assumption|].
        split; [reflexivity|now left].
    + intros H; injection H as <- <-; simpl.
      split; [reflexivity|].
      split; [eexists; repeat split; try reflexivity; assumption|].
      split; [reflexivity|now left].
  - intros H; injection H as <- <-; simpl.
    split; [reflexivity|].
    split; [eexists; repeat split; try reflexivity; assumption|].
    split; [reflexivity|now left].
Qed.

(** POST /api/inventory of [server.js], when the save of the blood unit
    goes through, answers 201 and appends one available batch with the
    quantity, blood type and dates of the body, also when the update of
    the donor fails.  It never moves the last donation of a donor
    backwards: a donor keeps it, or is the donor of the body and gets the
    later collection date. *)
Theorem createInventory_effect env body b resp b' :
  writeFault env (writes (world b)) = None ->
  ServerJsBank.createInventory env body b = (resp, b') ->
  i_code resp = 201%nat
  /\ (exists unit,
         i_data resp = Some unit
         /\ inventories (world b') = inventories (world b) ++ [unit]
         /\ ~ In (Inventory._id unit) (ids (inventories (world b)))
         /\ Inventory.bloodType unit = ib_bloodType body
         /\ Inventory.units unit = ib_units body
         /\ Inventory.status unit = available
         /\ Inventory.expiryDate unit = ib_expiryDate body)
  /\ (forall i d,
         lookupDonor i (donors b) = Some d ->
         exists d',
           lookupDonor i (donors b') = Some d'
           /\ lastOrEpoch d <= lastOrEpoch d'
           /\ (Donor.lastDonation d' = Donor.lastDonation d
               \/ (ib_donorId body = Some i
                   /\ Donor.lastDonation d' = Some (ib_collectionDate body)))).
Proof.
  intros Hf Hrun.
  destruct (createInventory_anatomy env body b resp b' Hf Hrun)
    as [Hcode [[unit [Hdata [Hinv [Hid [Hbt [Hu [Hst [Hexp _]]]]]]]] [_ Hdonors]]].
  split; [assumption|]. split.
  - exists unit. repeat split; try assumption.
    rewrite Hid. apply freshId_fresh.
  - intros i d Hd.
    destruct Hdonors as [->|[j [dj [now [Hj [Hdj [Hlt ->]]]]]]].
    + exists d. split; [assumption|]. split; [lia|now left].
    + rewrite lookupDonor_upsertDonor. simpl.
      destruct (lookupDonor_In _ _ _ Hdj) as [_ Hidj].
      destruct (Nat.eqb_spec (Donor._id dj) i) as [E|E].
      * assert (i = j) as -> by congruence.
        assert (dj = d) as -> by congruence.
        eexists. split; [reflexivity|]. unfold lastOrEpoch in *. simpl.
        split; [lia|]. right. auto.
      * exists d. split; [assumption|]. split; [lia|now left].
Qed.

Lemma createInventory_effect_witness :
  let body := mkInventoryBody B_pos (Some 9%nat) 50 2 9000 in
  let r := ServerJsBank.createInventory (faultyEnv 100 1) body scenarioBank in
  i_code (fst r) = 201%nat
  /\ (exists unit,
         i_data (fst r) = Some unit
         /\ inventories (world (snd r)) = inventories (world scenarioBank) ++ [unit]
         /\ ~ In (Inventory._id unit) (ids (inventories (world scenarioBank)))
         /\ Inventory.bloodType unit = ib_bloodType body
         /\ Inventory.units unit = ib_units body
         /\ Inventory.status unit = available
         /\ Inventory.expiryDate unit = ib_expiryDate body)
  /\ (forall i d,
         lookupDonor i (donors scenarioBank) = Some d ->
         exists d',
           lookupDonor i (donors (snd r)) = Some d'
           /\ lastOrEpoch d <= lastOrEpoch d'
           /\ (Donor.lastDonation d' = Donor.lastDonation d
               \/ (ib_donorId body = Some i
                   /\ Donor.lastDonation d' = Some (ib_collectionDate body)))).
Proof.
  intros body r.
  apply (createInventory_effect (faultyEnv 100 1) body scenarioBank).
  - reflexivity.
  - apply surjective_pairing.
Defined.

(** Adding a blood unit and deleting it again, by the id the answer
    carries, gives back the inventory as it was. *)
Theorem createInventory_then_delete env env2 body b resp b1 unit resp2 w2 :
  writeFault env (writes (world b)) = None ->
  ServerJsBank.createInventory env body b = (resp, b1) ->
  i_data resp = Some unit ->
  writeFault env2 (writes (world b1)) = None ->
  ServerJsRoutes.deleteInventory env2 (IdOf (Inventory._id unit)) (world b1)
  = (resp2, w2) ->
  code resp2 = 200%nat /\ inventories w2 = inventories (world b).
Proof.
  intros Hf Hrun Hdata Hf2.
  destruct (createInventory_anatomy env body b resp b1 Hf Hrun)
    as [_ [[unit' [Hdata' [Hinv [Hid _]]]] _]].
  assert (unit' = unit) as -> by congruence.
  unfold ServerJsRoutes.deleteInventory, Inventory_findByIdAndDelete,
    tryCatch, bind, castObjectId, ret. cbv beta iota. rewrite Hf2, Hinv.
  pose proof (freshId_fresh (inventories (world b))) as Hfresh.
  rewrite <- Hid in Hfresh.
  rewrite lookup_app. apply lookup_None in Hfresh. rewrite Hfresh.
  unfold lookup at 1. simpl. rewrite Nat.eqb_refl.
  intros H. injection H as <- <-. simpl. split; [reflexivity|].
  rewrite filter_app. simpl. rewrite Nat.eqb_refl. simpl.
  rewrite app_nil_r. apply removeId_absent. now apply lookup_None.
Qed.

Lemma createInventory_then_delete_witness :
  let body := mkInventoryBody B_pos None 50 2 9000 in
  let r := ServerJsBank.createInventory (calmEnv 100) body scenarioBank in
  let r2 := ServerJsRoutes.deleteInventory (calmEnv 200) (IdOf 4%nat)
              (world (snd r)) in
  code (fst r2) = 200%nat
  /\ inventories (snd r2) = inventories (world scenarioBank).
Proof.
  intros body r r2.
  apply (createInventory_then_delete (calmEnv 100) (calmEnv 200) body
           scenarioBank (fst r) (snd r)
           (Inventory.mk 4%nat B_pos 2 None 50 9000 available 100 101)
           (fst r2) (snd r2)).
  - reflexivity.
  - apply surjective_pairing.
  - reflexivity.
  - reflexivity.
  - apply surjective_pairing.
Defined.

(* ----------------------------------------------------------------- *)
(** *** The statistics *)

Definition groupHas (t : BloodType) (g : list (BloodType * Z)) : bool :=
  existsb (fun p => BloodType_eqb (fst p) t) g.

Definition groupTotal (t : BloodType) (g : list (BloodType * Z)) : Z :=
  match find (fun p => BloodType_eqb (fst p) t) g with
  | Some p => snd p
  | None => 0
  end.

Lemma groupHas_add t bt u g :
  groupHas t (addToGroup bt u g) = groupHas t g || BloodType_eqb bt t.
Proof.
  unfold groupHas. induction g as [|[k total] g IH]; simpl.
  - now rewrite orb_false_r.
  - destruct (BloodType_eqb_spec k bt) as [E|E]; simpl.
    + subst k. destruct (BloodType_eqb bt t); simpl;
        [reflexivity|now rewrite orb_false_r].
    + rewrite IH. now rewrite orb_assoc.
Qed.

Lemma groupTotal_add t bt u g :
  groupTotal t (addToGroup bt u g)
  = groupTotal t g + (if BloodType_eqb bt t then u else 0).
Proof.
  unfold groupTotal. induction g as [|[k total] g IH]; simpl.
  - destruct (BloodType_eqb bt t); simpl; lia.
  - destruct (BloodType_eqb_spec k bt) as [E|E]; simpl.
    + subst k. destruct (BloodType_eqb bt t); simpl; lia.
    + destruct (BloodType_eqb_spec k t) as [F|F]; simpl.
      * subst k. destruct (BloodType_eqb_spec bt t); [congruence|lia].
      * exact IH.
Qed.

Lemma groupHas_In t g : groupHas t g = true <-> In t (map fst g).
Proof.
  unfold groupHas. rewrite existsb_exists, in_map_iff. split.
  - intros [p [Hp E]]. exists p.
    split; [now destruct (BloodType_eqb_spec (fst p) t)|assumption].
  - intros [p [E Hp]]. exists p. split; [assumption|].
    now destruct (BloodType_eqb_spec (fst p) t).
Qed.

Lemma keys_add bt u g :
  NoDup (map fst g) -> NoDup (map fst (addToGroup bt u g)).
Proof.
  induction g as [|[k total] g IH]; simpl; intros H.
  - repeat constructor. simpl. tauto.
  - inversion_clear H as [|? ? Hk Hg].
    destruct (BloodType_eqb_spec k bt) as [E|E]; simpl.
    + now constructor.
    + constructor; [|auto].
      intros Hin. apply groupHas_In in Hin. rewrite groupHas_add in Hin.
      apply orb_prop in Hin as [Hin|Hin].
      * apply groupHas_In in Hin. contradiction.
      * destruct (BloodType_eqb_spec bt k); congruence.
Qed.

Lemma groupBy_fold t l :
  forall g,
    NoDup (map fst g) ->
    let g' := fold_left
                (fun groups d =>
                   addToGroup (Inventory.bloodType d) (Inventory.units d) groups)
                l g in
    NoDup (map fst g')
    /\ groupHas t g' = groupHas t g || existsb (ofType t) l
    /\ groupTotal t g' = groupTotal t g + quantityOf t l.
Proof.
  induction l as [|d l IH]; intros g Hg; simpl.
  - split; [assumption|]. split; [now rewrite orb_false_r|].
    unfold quantityOf. simpl. lia.
  - destruct (IH (addToGroup (Inventory.bloodType d) (Inventory.units d) g)
                 (keys_add _ _ _ Hg)) as [H1 [H2 H3]].
    split; [assumption|]. split.
    + rewrite H2, groupHas_add. unfold ofType. now rewrite orb_assoc.
    + rewrite H3, groupTotal_add, quantityOf_cons. unfold share, ofType. lia.
Qed.

Lemma groupTotal_In t s g :
  NoDup (map fst g) -> In (t, s) g -> groupTotal t g = s.
Proof.
  unfold groupTotal. induction g as [|[k total] g IH]; simpl; intros Hnd Hin;
    [contradiction|].
  inversion_clear Hnd as [|? ? Hk Hg].
  destruct Hin as [E|Hin].
  - injection E as -> ->.
    now destruct (BloodType_eqb_spec t t).
  - destruct (BloodType_eqb_spec k t) as [E|E]; [|auto].
    exfalso. apply Hk. subst k.
    apply in_map_iff. now exists (t, s).
Qed.

Lemma NoDup_keys_filter q (g : list (BloodType * Z)) :
  NoDup (map fst g) -> NoDup (map fst (filter q g)).
Proof.
  induction g as [|p g IH]; simpl; intros H; [constructor|].
  inversion_clear H as [|? ? Hp Hg].
  destruct (q p); simpl; [|auto].
  constructor; [|auto].
  intros Hin. apply Hp. apply in_map_iff in Hin as [y [E Hy]].
  apply filter_In in Hy as [Hy _]. apply in_map_iff. eauto.
Qed.

Lemma bloodTypes_NoDup : NoDup bloodTypes.
Proof.
  unfold bloodTypes. repeat constructor; simpl; intuition discriminate.
Qed.

Lemma bloodTypes_In t : In t bloodTypes.
Proof. destruct t; simpl; tauto. Qed.

(** The groups below 5 units are as many as the blood types that have a
    group with a total below 5. *)
Lemma count_low_groups g :
  NoDup (map fst g) ->
  List.length (filter (fun p => snd p <? 5) g)
  = List.length (filter (fun t => groupHas t g && (groupTotal t g <? 5))
                        bloodTypes).
Proof.
  intros Hnd.
  rewrite <- (length_map fst (filter (fun p => snd p <? 5) g)).
  apply Permutation_length. apply NoDup_Permutation.
  - now apply NoDup_keys_filter.
  - apply NoDup_filter, bloodTypes_NoDup.
  - intros t. rewrite in_map_iff, filter_In. split.
    + intros [[k s] [E Hp]]. simpl in E. subst k.
      apply filter_In in Hp as [Hp Hlow]. simpl in Hlow.
      split; [apply bloodTypes_In|].
      rewrite (groupTotal_In _ _ _ Hnd Hp), Hlow, andb_true_r.
      apply groupHas_In. apply in_map_iff. now exists (t, s).
    + intros [_ H]. apply andb_prop in H as [Hhas Hlow].
      apply groupHas_In in Hhas. apply in_map_iff in Hhas as [[k s] [E Hp]].
      simpl in E. subst k. exists (t, s). split; [reflexivity|].
      apply filter_In. split; [assumption|]. simpl.
      now rewrite <- (groupTotal_In _ _ _ Hnd Hp).
Qed.

Lemma available_of_type t l :
  existsb (ofType t)
          (filter (fun d => InventoryStatus_eqb (Inventory.status d) available) l)
  = existsb (inStatus t available) l
  /\ quantityOf t
       (filter (fun d => InventoryStatus_eqb (Inventory.status d) available) l)
     = quantityIn t available l.
Proof.
  unfold quantityOf, quantityIn, inStatus.
  induction l as [|d l [IH1 IH2]]; [split; reflexivity|]. simpl.
  destruct (InventoryStatus_eqb (Inventory.status d) available); simpl;
    rewrite ?andb_false_r, ?andb_true_r.
  - rewrite IH1. split; [reflexivity|].
    destruct (ofType t d); simpl; lia.
  - split; assumption.
Qed.

(** GET /api/stats of [server.js], when its sweep goes through, reports
    the number of active donors, the sum of the units of the available
    batches left after the sweep, the number of pending requests, and as
    critical levels the number of blood types that have at least one
    available batch and fewer than 5 available units: a blood type with
    no available batch at all is not counted. *)
Theorem stats_counts env b r b' :
  writeFault env (writes (world b)) = None ->
  ServerJsBank.stats env b = (r, b') ->
  let inv := sweepExpired (clock env (ticks (world b))) (inventories (world b)) in
  r = StatsOk
        (mkStats
           (List.length (filter Donor.isActive (donors b)))
           (sumUnits (filter (fun d => InventoryStatus_eqb (Inventory.status d)
                                                           available) inv))
           (List.length (filter (fun q => RequestStatus_eqb (Request.status q)
                                                            pending)
                                (requests (world b))))
           (List.length
              (filter (fun t => existsb (inStatus t available) inv
                                && (quantityIn t available inv <? 5))
                      bloodTypes)))
  /\ inventories (world b') = inv.
Proof.
  intros Hf Hrun inv.
  set (critical := List.length
                     (filter (fun t => existsb (inStatus t available) inv
                                       && (quantityIn t available inv <? 5))
                             bloodTypes)).
  revert Hrun.
  unfold ServerJsBank.stats, tryCatchB, bindB, liftW,
    checkExpiredBlood, Inventory_updateMany_expire, write, bind, newDate,
    Donor_count_active, Request_count_pending, Inventory_aggregate_critical,
    retB. simpl. rewrite Hf. simpl.
  match goal with
  | |- context [Inventory_aggregate_totalUnits ?m ?w1] =>
      destruct (aggregate_total m w1) as [g [Hg Ht]]; rewrite Hg; simpl in Ht
  end.
  simpl.
  change (sweepExpired (clock env (ticks (world b))) (inventories (world b)))
    with inv in Ht |- *.
  set (groups := groupByBloodType
                   (filter (fun d => InventoryStatus_eqb (Inventory.status d)
                                                         available) inv)).
  assert (Hcount :
            match
              match filter (fun p => snd p <? 5) groups with
              | [] => []
              | p :: low => [List.length (p :: low)]
              end
            with
            | c :: _ => c
            | [] => 0%nat
            end
            = critical).
  { assert (Hnd : NoDup (map fst groups)).
    { unfold groups, groupByBloodType.
      apply (groupBy_fold A_pos _ []). constructor. }
    transitivity (List.length (filter (fun p => snd p <? 5) groups)).
    { now destruct (filter (fun p => snd p <? 5) groups). }
    rewrite (count_low_groups _ Hnd). unfold critical.
    f_equal. apply filter_ext. intros t.
    unfold groups, groupByBloodType.
    destruct (groupBy_fold t
                (filter (fun d => InventoryStatus_eqb (Inventory.status d)
                                                      available) inv)
                [] (NoDup_nil _)) as [_ [H2 H3]].
    cbv zeta in H2, H3. rewrite H2, H3.
    destruct (available_of_type t inv) as [E1 E2].
    rewrite E1, E2. reflexivity. }
  clearbody critical.
  destruct (filter (fun p => snd p <? 5) groups) as [|p low] eqn:Hlow;
    intros H; injection H as <- <-; simpl; rewrite Ht;
    (split; [|reflexivity]); rewrite <- Hcount; reflexivity.
Qed.

Lemma stats_counts_witness :
  let env := calmEnv 100 in
  let r := ServerJsBank.stats env scenarioBank in
  let inv := sweepExpired (clock env (ticks (world scenarioBank)))
                          (inventories (world scenarioBank)) in
  fst r = StatsOk
        (mkStats
           (List.length (filter Donor.isActive (donors scenarioBank)))
           (sumUnits (filter (fun d => InventoryStatus_eqb (Inventory.status d)
                                                           available) inv))
           (List.length (filter (fun q => RequestStatus_eqb (Request.status q)
                                                            pending)
                                (requests (world scenarioBank))))
           (List.length
              (filter (fun t => existsb (inStatus t available) inv
                                && (quantityIn t available inv <? 5))
                      bloodTypes)))
  /\ inventories (world (snd r)) = inv.
Proof.
  intros env r.
  apply (stats_counts env scenarioBank (fst r) (snd r)).
  - reflexivity.
  - apply surjective_pairing.
Defined.

(* ----------------------------------------------------------------- *)
(** *** Rejecting on the second server *)

(** PUT /api/requests/:id/reject of the second server does not look at the
    status of the request and never writes to the inventory: rejecting a
    request that was approved sets it to rejected while the units that the
    approval reserved stay reserved. *)
Theorem reject_keeps_reservation env setters id notes b r0 resp b' :
  lookupRequest id (requests (world b)) = Some r0 ->
  ReserveBank.reject env setters (IdOf id) notes b = (resp, b') ->
  inventories (world b') = inventories (world b)
  /\ (writeFault env (writes (world b)) = None ->
      writeFault env (S (writes (world b))) = None ->
      code resp = 200%nat
      /\ exists r, lookupRequest id (requests (world b')) = Some r
                   /\ Request.status r = rejected
                   /\ Request.units r = Request.units r0
                   /\ Request.bloodType r = Request.bloodType r0).
Proof.
  intros Hreq. pose proof (lookupRequest_id _ _ _ Hreq) as Hid.
  unfold ReserveBank.reject, tryCatchB, bindB, liftW, Request_findById,
    bind, castObjectId, ret, newDate, writeB, Recipient_findByIdAndUpdate,
    write, retB. simpl.
  rewrite Hreq. simpl.
  destruct (writeFault env (writes (world b))) eqn:Hf1; simpl.
  - intros H. injection H as <- <-. simpl. split; [reflexivity|discriminate].
  - destruct (writeFault env (S (writes (world b)))) eqn:Hf2; simpl;
      intros H; injection H as <- <-; simpl; (split; [reflexivity|]);
      intros _ Hno; try discriminate.
    split; [reflexivity|].
    exists (Request.with_updatedAt (clock env (ticks (world b)))
              (Request.with_processedBy "System Admin"
                 (Request.with_status rejected r0))).
    split; [|repeat split].
    rewrite <- Hid at 1.
    change (Request._id r0)
      with (Request._id (Request.with_updatedAt (clock env (ticks (world b)))
                           (Request.with_processedBy "System Admin"
                              (Request.with_status rejected r0)))).
    apply lookupRequest_upsertRequest_same.
Qed.

(** The scenario after the second server approved the request. *)
Definition approvedBank : Bank :=
  mkBank (snd (approve Reserving (calmEnv 100) 7%nat scenarioWorld)) [] [].

Definition approvedRequest : Request.doc :=
  Request.mk 7%nat (Some 5%nat) A_pos 5 approved (Some "System Admin") None 102.

Lemma reject_keeps_reservation_witness :
  inventories
    (world (snd (ReserveBank.reject (calmEnv 100) plainSetters (IdOf 7%nat) None
                approvedBank)))
  = inventories (world approvedBank)
  /\ (writeFault (calmEnv 100) (writes (world approvedBank)) = None ->
      writeFault (calmEnv 100) (S (writes (world approvedBank))) = None ->
      code (fst (ReserveBank.reject (calmEnv 100) plainSetters (IdOf 7%nat) None
                approvedBank))
      = 200%nat
      /\ exists r,
          lookupRequest 7%nat
            (requests
               (world (snd (ReserveBank.reject (calmEnv 100) plainSetters (IdOf 7%nat) None
                approvedBank))))
          = Some r
          /\ Request.status r = rejected
          /\ Request.units r = Request.units approvedRequest
          /\ Request.bloodType r = Request.bloodType approvedRequest).
Proof.
  apply (reject_keeps_reservation (calmEnv 100) plainSetters 7%nat None
           approvedBank approvedRequest
           (fst (ReserveBank.reject (calmEnv 100) plainSetters (IdOf 7%nat) None
                approvedBank))
           (snd (ReserveBank.reject (calmEnv 100) plainSetters (IdOf 7%nat) None
                approvedBank))).
  - vm_compute. reflexivity.
  - apply surjective_pairing.
Defined.
